(** * Managed-buffer lifecycle of the WSA UDP zero-copy transport

    A shallow embedding of [host/lib/transport/udp_wsa_zero_copy.cpp]:
    the reusable managed receive buffer ([udp_zero_copy_asio_mrb]), the
    reusable managed send buffer ([udp_zero_copy_asio_msb]) and the transport
    that owns them ([udp_zero_copy_wsa_impl]).

    Objects are records, member functions take the object and return the
    updated object.  A pointer to a pooled buffer is its position in the
    owning vector.  What the operating system answers (return values of
    [recv], of the readiness wait, of the event wait, of socket setup) is
    an explicit argument of the function that asks. *)

From Stdlib Require Import ZArith QArith String Lia.
From stdpp Require Import base option list.

Local Open Scope Z_scope.

(** ** Platform constants

    Values the source takes from headers outside the translation unit:
    the width of [size_t], the Windows limit on a wait set and
    [udp_simple::mtu]. *)
Class Platform := {
  size_bits : Z;
  WSA_MAXIMUM_WAIT_EVENTS : Z;
  mtu : Z
}.

(** A 64-bit Windows build: 64-bit [size_t], 64 wait objects, and the
    payload of an Ethernet frame after the IPv4 and UDP headers. *)
Definition win64 : Platform :=
  {| size_bits := 64; WSA_MAXIMUM_WAIT_EVENTS := 64; mtu := 1500 - 20 - 8 |}.

(** Conversion of an integer value to [size_t]. *)
Definition to_size_t `{Platform} (z : Z) : Z := z mod 2 ^ size_bits.

(** Conversion of an integer value to [int] (32 bits, two's complement). *)
Definition to_int (z : Z) : Z := (z + 2 ^ 31) mod 2 ^ 32 - 2 ^ 31.

(** [DWORD(d)] for a double [d]: truncation toward zero, kept in 32 bits
    (the conversion is undefined in C++ outside the range of DWORD). *)
Definition DWORD_of_double (d : Q) : Z :=
  (Qnum d ÷ Zpos (Qden d)) mod 2 ^ 32.

(** A pointer to a pooled buffer: its position in [_mrb_pool] or [_msb_pool]. *)
Abbreviation ptr := nat (only parsing).

(** [static const size_t DEFAULT_NUM_FRAMES = 32] *)
Definition DEFAULT_NUM_FRAMES : Z := 32.

(** ** The bounded queue of free receive buffers *)
Module bounded_buffer.

(** Modelled from the spec: uhd/transport/bounded_buffer.hpp is not part of
    the sources.  The queue holds the handles in arrival order.  A push
    inserts the handle (a push on a full queue is a contract violation that
    the transport rules out: it never holds more handles than buffers
    exist, so the capacity is not represented).  *)
Definition t (elem : Type) : Type := list elem.

Definition push_with_haste {elem} (q : t elem) (e : elem) : t elem :=
  q ++ [e].

(** Modelled from the spec: a pop yields an available entry, or reports
    failure once the timeout has elapsed and leaves the queue unchanged.
    Seen from one caller, an entry is available when the queue is not
    empty. *)
Definition pop_with_timed_wait {elem} (q : t elem) : option (elem * t elem) :=
  match q with
  | [] => None
  | e :: q' => Some (e, q')
  end.

End bounded_buffer.

(** ** Reusable managed receive buffer *)
Module udp_zero_copy_asio_mrb.

(** [_pending] is a reference to the transport's queue: the member
    functions that use it take the queue and return it. *)
Record t := {
  _mem : nat;    (* the pool slice *)
  _len : Z       (* size_t *)
}.

(** [udp_zero_copy_asio_mrb(void *mem, bounded_buffer<...> &pending)] *)
Definition make (mem : nat) : t := {| _mem := mem; _len := 0 |}.

(** [void release(void)] *)
Definition release (this : ptr) (b : t) (_pending : bounded_buffer.t ptr)
  : t * bounded_buffer.t ptr :=
  if _len b =? 0 then (b, _pending)
  else ({| _mem := _mem b; _len := 0 |},
        bounded_buffer.push_with_haste _pending this).

(** [sptr get_new(size_t len)]: the managed buffer handed to the caller is
    a pointer to this object. *)
Definition get_new (this : ptr) (b : t) (len : Z) : t * ptr :=
  ({| _mem := _mem b; _len := len |}, this).

(** [size_t get_size(void) const] *)
Definition get_size (b : t) : Z := _len b.

End udp_zero_copy_asio_mrb.

(** ** Exceptions *)

Inductive exception :=
| bad_alloc                               (* buffer_pool::make *)
| assertion_error (code : string)         (* UHD_ASSERT_THROW *)
| system_error                            (* resolver.resolve *)
| os_error (what : string) (error : Z).   (* uhd::os_error *)

(** A computation that returns or throws. *)
Definition throws (A : Type) : Type := exception + A.

#[export] Instance throws_ret : MRet throws := fun _ a => inr a.
#[export] Instance throws_bind : MBind throws := fun _ _ k m =>
  match m with
  | inl e => inl e
  | inr a => k a
  end.

Definition throw {A} (e : exception) : throws A := inl e.

(** [UHD_ASSERT_THROW(code)] *)
Definition UHD_ASSERT_THROW (cond : bool) (code : string) : throws unit :=
  if cond then mret tt else throw (assertion_error code).

(** ** Reusable managed send buffer *)
Module udp_zero_copy_asio_msb.

(** Return values of [WSAWaitForMultipleEvents] on a single event. *)
Inductive wait_result :=
| WSA_WAIT_EVENT_0
| WSA_WAIT_IO_COMPLETION
| WSA_WAIT_TIMEOUT
| WSA_WAIT_FAILED.

#[global] Instance wait_result_eq_dec : EqDecision wait_result.
Proof. solve_decision. Defined.

(** Winsock calls a member function issues on the socket or the event. *)
Inductive wsa_call :=
| WSASetEvent
| WSASend (sock_fd : Z) (len : Z).

(** Modelled from the spec: the declarations of WSABUF and WSAOVERLAPPED
    (Windows SDK) are not part of the sources.  [_wsa_buff.len] holds the
    length assigned to it, and of [_overlapped] only the completion event
    matters: [_overlapped_hEvent] tells whether that manual-reset event is
    signalled. *)
Record t := {
  _sock_fd : Z;
  _frame_size : Z;            (* const size_t *)
  _committed : bool;
  _overlapped_hEvent : bool;
  _wsa_buff_buf : nat;        (* the pool slice *)
  _wsa_buff_len : Z
}.

(** [UHD_INLINE void commit(size_t len)] *)
Definition commit (b : t) (len : Z) : t * list wsa_call :=
  if _committed b then (b, [])
  else if len =? 0 then
    ({| _sock_fd := _sock_fd b; _frame_size := _frame_size b;
        _committed := true; _overlapped_hEvent := true;
        _wsa_buff_buf := _wsa_buff_buf b; _wsa_buff_len := len |},
     [WSASetEvent])
  else
    ({| _sock_fd := _sock_fd b; _frame_size := _frame_size b;
        _committed := true; _overlapped_hEvent := _overlapped_hEvent b;
        _wsa_buff_buf := _wsa_buff_buf b; _wsa_buff_len := len |},
     [WSASend (_sock_fd b) len]).

(** The wait on one event: a signalled event satisfies it at once;
    otherwise [os] is the answer of the operating system for the given
    timeout in milliseconds (the overlapped send completes in time, or the
    wait times out, is interrupted or fails). *)
Definition WSAWaitForMultipleEvents
    (hEvent : bool) (dwTimeout : Z) (os : Z -> wait_result) : wait_result :=
  if hEvent then WSA_WAIT_EVENT_0 else os dwTimeout.

(** [UHD_INLINE sptr get_new(const double timeout, size_t &index)]:
    returns the managed buffer (a pointer to this object) or none, the
    updated object and the updated [index]. *)
Definition get_new `{Platform} (this : ptr) (b : t)
    (timeout : Q) (index : Z) (os : Z -> wait_result)
  : option ptr * t * Z :=
  let result :=
    WSAWaitForMultipleEvents (_overlapped_hEvent b)
      (DWORD_of_double (timeout * 1000)) os in
  if decide (result = WSA_WAIT_TIMEOUT) then (None, b, index)
  else
    let index := to_size_t (index + 1) in  (* advances the caller's buffer *)
    (Some this,
     {| _sock_fd := _sock_fd b; _frame_size := _frame_size b;
        _committed := false; _overlapped_hEvent := false;
        _wsa_buff_buf := _wsa_buff_buf b;
        _wsa_buff_len := _frame_size b |},
     index).

(** [size_t get_size(void) const] *)
Definition get_size (b : t) : Z := _wsa_buff_len b.

(** [udp_zero_copy_asio_msb(void *mem, int sock_fd, const size_t frame_size)].
    [WSACreateEvent_ok] tells whether the event could be created; a fresh
    event is not signalled.  [_wsa_buff.len] is first assigned by
    [commit(0)].  Returns the object and the Winsock calls issued. *)
Definition make (mem : nat) (sock_fd : Z) (frame_size : Z)
    (WSACreateEvent_ok : bool) : throws (t * list wsa_call) :=
  let b := {| _sock_fd := sock_fd; _frame_size := frame_size;
              _committed := false; _overlapped_hEvent := false;
              _wsa_buff_buf := mem; _wsa_buff_len := 0 |} in
  _ ← UHD_ASSERT_THROW WSACreateEvent_ok
        "_overlapped.hEvent != WSA_INVALID_EVENT";
  mret (commit b 0).  (* makes buffer available via get_new *)

End udp_zero_copy_asio_msb.

(** ** The transport *)
Module udp_zero_copy_wsa_impl.

Module mrb := udp_zero_copy_asio_mrb.
Module msb := udp_zero_copy_asio_msb.

Record t := {
  _recv_frame_size : Z;
  _num_recv_frames : Z;
  _send_frame_size : Z;
  _num_send_frames : Z;
  _msb_pool : list msb.t;
  _mrb_pool : list mrb.t;
  _pending_recv_buffs : bounded_buffer.t ptr;
  _next_send_buff_index : Z;
  _sock_fd : Z
}.

(** *** Receive implementation *)

(** What the outside world answers during one [get_recv_buff].
    [wait_for_recv_ready] stands for the helper of udp_common.hpp (not part
    of the sources): whether the socket becomes readable within the timeout
    it is given.  [pop_elapsed] is the time that went by inside the queue
    pop; the transport never reads a clock, so no function below looks at
    it. *)
Record recv_world := {
  pop_elapsed : Q;
  first_recv : Z;                    (* result of the first ::recv *)
  wait_for_recv_ready : Q -> bool;
  second_recv : Z                    (* result of the second ::recv *)
}.

(** The calls [get_recv_buff] makes, in order, with their arguments. *)
Inductive call :=
| pop_with_timed_wait (timeout : Q)
| recv (mrb : ptr) (len : Z)
| wait_for_recv_ready_ (timeout : Q)
| push_with_haste (mrb : ptr).

Definition set_recv (x : t) (pool : list mrb.t) (q : bounded_buffer.t ptr)
  : t :=
  {| _recv_frame_size := _recv_frame_size x;
     _num_recv_frames := _num_recv_frames x;
     _send_frame_size := _send_frame_size x;
     _num_send_frames := _num_send_frames x;
     _msb_pool := _msb_pool x;
     _mrb_pool := pool;
     _pending_recv_buffs := q;
     _next_send_buff_index := _next_send_buff_index x;
     _sock_fd := _sock_fd x |}.

(** [mrb->get_new(len)] through the pointer [p].  A pointer taken from the
    queue points into the pool ([recv_side.wf] below). *)
Definition mrb_get_new (pool : list mrb.t) (p : ptr) (len : Z)
  : list mrb.t :=
  alter (fun b => fst (mrb.get_new p b len)) p pool.

(** [managed_recv_buffer::sptr get_recv_buff(double timeout)]: the returned
    managed buffer (or none), the transport afterwards, the calls made. *)
Definition get_recv_buff `{Platform} (x : t) (timeout : Q) (w : recv_world)
  : option ptr * t * list call :=
  match bounded_buffer.pop_with_timed_wait (_pending_recv_buffs x) with
  | Some (mrb, q) =>
      let ret := first_recv w in
      if 0 <? ret then
        (Some mrb,
         set_recv x (mrb_get_new (_mrb_pool x) mrb (to_size_t ret)) q,
         [pop_with_timed_wait timeout; recv mrb (_recv_frame_size x)])
      else if wait_for_recv_ready w timeout then
        (Some mrb,
         set_recv x
           (mrb_get_new (_mrb_pool x) mrb (to_size_t (second_recv w))) q,
         [pop_with_timed_wait timeout; recv mrb (_recv_frame_size x);
          wait_for_recv_ready_ timeout; recv mrb (_recv_frame_size x)])
      else
        (* timeout: return the managed buffer to the queue *)
        (None,
         set_recv x (_mrb_pool x) (bounded_buffer.push_with_haste q mrb),
         [pop_with_timed_wait timeout; recv mrb (_recv_frame_size x);
          wait_for_recv_ready_ timeout; push_with_haste mrb])
  | None => (None, x, [pop_with_timed_wait timeout])
  end.

(** The caller lets go of the managed receive buffer [p]: [release()] on
    the pointed-to object. *)
Definition release_recv_buff (x : t) (p : ptr) : t :=
  match _mrb_pool x !! p with
  | Some b =>
      let '(b', q) := mrb.release p b (_pending_recv_buffs x) in
      set_recv x (<[p := b']> (_mrb_pool x)) q
  | None => x
  end.

(** The length a managed receive buffer reports to its holder. *)
Definition managed_recv_size (x : t) (p : ptr) : option Z :=
  mrb.get_size <$> _mrb_pool x !! p.

Definition get_num_recv_frames (x : t) : Z := _num_recv_frames x.
Definition get_recv_frame_size (x : t) : Z := _recv_frame_size x.

(** *** Send implementation *)

Definition set_send (x : t) (pool : list msb.t) (index : Z) : t :=
  {| _recv_frame_size := _recv_frame_size x;
     _num_recv_frames := _num_recv_frames x;
     _send_frame_size := _send_frame_size x;
     _num_send_frames := _num_send_frames x;
     _msb_pool := pool;
     _mrb_pool := _mrb_pool x;
     _pending_recv_buffs := _pending_recv_buffs x;
     _next_send_buff_index := index;
     _sock_fd := _sock_fd x |}.

(** [managed_send_buffer::sptr get_send_buff(double timeout)].  The vector
    access [_msb_pool[_next_send_buff_index]] is unchecked: outside the
    vector the behaviour is undefined, and the model has no result
    ([None]). *)
Definition get_send_buff `{Platform} (x : t) (timeout : Q)
    (os : Z -> msb.wait_result) : option (option ptr * t) :=
  let index :=
    if _next_send_buff_index x =? _num_send_frames x then 0
    else _next_send_buff_index x in
  b ← _msb_pool x !! Z.to_nat index;
  let '(buff, b', index') :=
    msb.get_new (Z.to_nat index) b timeout index os in
  Some (buff, set_send x (<[Z.to_nat index := b']> (_msb_pool x)) index').

(** The holder of the managed send buffer [p] commits [len] bytes. *)
Definition commit_send_buff (x : t) (p : ptr) (len : Z)
  : t * list msb.wsa_call :=
  match _msb_pool x !! p with
  | Some b =>
      let '(b', calls) := msb.commit b len in
      (set_send x (<[p := b']> (_msb_pool x)) (_next_send_buff_index x),
       calls)
  | None => (x, [])
  end.

(** The length a managed send buffer reports to its holder. *)
Definition managed_send_size (x : t) (p : ptr) : option Z :=
  msb.get_size <$> _msb_pool x !! p.

Definition get_num_send_frames (x : t) : Z := _num_send_frames x.
Definition get_send_frame_size (x : t) : Z := _send_frame_size x.

(** *** Construction *)

(** The options read from [hints].  Each field is the option's value after
    [hints.cast<double>] and the cast to [size_t] or [int], [None] when the
    key is absent; doubles with a fractional part or outside the target
    range are not represented. *)
Record device_addr_t := {
  recv_frame_size : option Z;
  num_recv_frames : option Z;
  send_frame_size : option Z;
  num_send_frames : option Z;
  recv_buff_size : option Z;
  send_buff_size : option Z
}.

(** [hints.cast<double>(key, def)] *)
Definition cast (value : option Z) (def : Z) : Z := default def value.

(** What the outside world answers while the transport is set up. *)
Record setup_world := {
  recv_buffer_pool_made : bool;   (* buffer_pool::make returned *)
  send_buffer_pool_made : bool;
  resolved : bool;                (* resolver.resolve returned *)
  WSASocket : Z;
  WSAConnect : Z;
  WSAGetLastError : Z;
  WSACreateEvent : nat -> bool    (* for the i-th send buffer: valid event *)
}.

(** Modelled from the spec: buffer_pool::make (uhd/transport/buffer_pool.hpp
    is not part of the sources) fails if the memory cannot be allocated. *)
Definition buffer_pool_make (made : bool) : throws unit :=
  if made then mret tt else throw bad_alloc.

(** [INVALID_SOCKET], all bits set. *)
Definition INVALID_SOCKET `{Platform} : Z := to_size_t (-1).

(** The loop that allocates the re-usable managed send buffers. *)
Fixpoint make_msb_pool (slices : list nat) (sock_fd frame_size : Z)
    (WSACreateEvent_ok : nat -> bool) : throws (list msb.t) :=
  match slices with
  | [] => mret []
  | i :: slices =>
      b ← msb.make i sock_fd frame_size (WSACreateEvent_ok i);
      pool ← make_msb_pool slices sock_fd frame_size WSACreateEvent_ok;
      mret (fst b :: pool)
  end.

(** [udp_zero_copy_wsa_impl(addr, port, hints)]: the constructed transport,
    or the exception that leaves no object behind. *)
Definition make `{Platform} (hints : device_addr_t) (w : setup_world)
  : throws t :=
  let recv_frame_size_ := cast (recv_frame_size hints) mtu in
  let num_recv_frames_ := cast (num_recv_frames hints) DEFAULT_NUM_FRAMES in
  let send_frame_size_ := cast (send_frame_size hints) mtu in
  let num_send_frames_ := cast (num_send_frames hints) DEFAULT_NUM_FRAMES in
  _ ← buffer_pool_make (recv_buffer_pool_made w);
  _ ← buffer_pool_make (send_buffer_pool_made w);
  _ ← UHD_ASSERT_THROW (num_send_frames_ <=? WSA_MAXIMUM_WAIT_EVENTS)
        "_num_send_frames <= WSA_MAXIMUM_WAIT_EVENTS";
  (* resolve the address *)
  _ ← (if resolved w then mret tt else throw system_error);
  (* create the socket *)
  let sock_fd := WSASocket w in
  _ ← (if sock_fd =? INVALID_SOCKET
       then throw (os_error "WSASocket() failed with error %d"
                     (WSAGetLastError w))
       else mret tt);
  (* set the socket non-blocking for recv, resize the socket buffers:
     no effect on what is built here *)
  (* connect the socket so we can send/recv *)
  _ ← (if negb (WSAConnect w =? 0)
       then throw (os_error "WSAConnect() failed with error %d"
                     (WSAGetLastError w))
       else mret tt);
  (* allocate re-usable managed receive buffers *)
  let recv_slices := seq 0 (Z.to_nat num_recv_frames_) in
  let mrb_pool := mrb.make <$> recv_slices in
  let pending := foldl bounded_buffer.push_with_haste [] recv_slices in
  (* allocate re-usable managed send buffers; their constructor takes the
     socket as [int sock_fd] *)
  msb_pool ← make_msb_pool (seq 0 (Z.to_nat num_send_frames_))
               (to_int sock_fd) send_frame_size_ (WSACreateEvent w);
  mret {| _recv_frame_size := recv_frame_size_;
          _num_recv_frames := num_recv_frames_;
          _send_frame_size := send_frame_size_;
          _num_send_frames := num_send_frames_;
          _msb_pool := msb_pool;
          _mrb_pool := mrb_pool;
          _pending_recv_buffs := pending;
          _next_send_buff_index := 0;
          _sock_fd := sock_fd |}.

End udp_zero_copy_wsa_impl.

(** ** Sequences of send-side calls *)
Module send_side.

Import udp_zero_copy_wsa_impl.

(** What a single producer does with the transport: ask for the next send
    buffer, or commit a buffer it holds. *)
Inductive step :=
| get_send_buff_ (timeout : Q) (os : Z -> msb.wait_result)
| commit_ (p : ptr) (len : Z).

(** Runs the steps in order and collects what each [get_send_buff]
    returned; no result once a call is undefined. *)
Fixpoint run `{Platform} (x : t) (steps : list step)
  : option (list (option ptr) * t) :=
  match steps with
  | [] => Some ([], x)
  | get_send_buff_ timeout os :: steps =>
      '(buff, x') ← get_send_buff x timeout os;
      '(buffs, x'') ← run x' steps;
      Some (buff :: buffs, x'')
  | commit_ p len :: steps =>
      run (fst (commit_send_buff x p len)) steps
  end.

(** The buffers handed out, in order. *)
Definition handed_out (buffs : list (option ptr)) : list ptr :=
  omap id buffs.

(** [k] consecutive positions of a ring of [n] buffers, from [start]. *)
Definition round_robin (n : Z) (start : Z) (k : nat) : list ptr :=
  (fun j => Z.to_nat ((start + Z.of_nat j) mod n)) <$> seq 0 k.

(** The state of the send side between calls: one pooled buffer per
    configured frame, and an index that is at most one past the last. *)
Definition wf `{Platform} (x : t) : Prop :=
  Z.of_nat (length (_msb_pool x)) = _num_send_frames x /\
  0 <= _next_send_buff_index x <= _num_send_frames x /\
  _num_send_frames x < 2 ^ size_bits.

(** The index [get_send_buff] works with after its wrap-around test. *)
Definition wrapped (x : t) : Z :=
  if _next_send_buff_index x =? _num_send_frames x then 0
  else _next_send_buff_index x.

(** The acquire operation of a send buffer leaves the index it is given
    as it found it. *)
Definition acquire_keeps_index `{Platform} (this : ptr) (b : msb.t)
    (timeout : Q) (index : Z) (os : Z -> msb.wait_result) : Prop :=
  (msb.get_new this b timeout index os).2 = index.

End send_side.

(** ** Receive-side bookkeeping *)
Module recv_side.

Import udp_zero_copy_wsa_impl.

(** Every pointer in the queue points into the pool. *)
Definition wf (x : t) : Prop :=
  Forall (fun p => (p < length (_mrb_pool x))%nat) (_pending_recv_buffs x).

(** The budget handed to the readiness wait, if the wait was made. *)
Fixpoint wait_budget (calls : list call) : option Q :=
  match calls with
  | [] => None
  | wait_for_recv_ready_ timeout :: _ => Some timeout
  | _ :: calls => wait_budget calls
  end.

(** The number of [::recv] attempts among the calls. *)
Fixpoint recv_attempts (calls : list call) : nat :=
  match calls with
  | [] => 0
  | recv _ _ :: calls => S (recv_attempts calls)
  | _ :: calls => recv_attempts calls
  end.

(** What is left of the caller's timeout after the queue pop. *)
Definition remaining_budget (timeout : Q) (w : recv_world) : Q :=
  (timeout - pop_elapsed w)%Q.

(** The readiness wait, when made, gets no more than what the pop left. *)
Definition waits_within_remaining_budget `{Platform}
    (x : t) (timeout : Q) (w : recv_world) : Prop :=
  match wait_budget (get_recv_buff x timeout w).2 with
  | Some budget => (budget <= remaining_budget timeout w)%Q
  | None => True
  end.

(** The call hands out a managed buffer that reports zero bytes. *)
Definition surfaced_as_empty_buffer `{Platform}
    (x : t) (timeout : Q) (w : recv_world) : Prop :=
  let '(buff, x', _) := get_recv_buff x timeout w in
  exists p, buff = Some p /\ managed_recv_size x' p = Some 0.

(** A buffer filled with [len] bytes and then released once is back in
    the queue. *)
Definition requeued_by_release
    (this : ptr) (b : mrb.t) (pending : bounded_buffer.t ptr) (len : Z)
  : Prop :=
  let '(b1, buff) := mrb.get_new this b len in
  snd (mrb.release buff b1 pending) =
    bounded_buffer.push_with_haste pending this.

End recv_side.

(** ** Concrete transports and worlds *)
Module examples.

Import udp_zero_copy_wsa_impl.

(** [recv_frame_size=1500, num_recv_frames=4, num_send_frames=2]. *)
Definition hints : device_addr_t :=
  {| recv_frame_size := Some 1500; num_recv_frames := Some 4;
     send_frame_size := None; num_send_frames := Some 2;
     recv_buff_size := None; send_buff_size := None |}.

(** Same, with more send frames than a wait set can hold. *)
Definition greedy_hints : device_addr_t :=
  {| recv_frame_size := Some 1500; num_recv_frames := Some 4;
     send_frame_size := None; num_send_frames := Some 65;
     recv_buff_size := None; send_buff_size := None |}.

(** Every setup call succeeds; the socket gets descriptor 7. *)
Definition setup_ok : setup_world :=
  {| recv_buffer_pool_made := true; send_buffer_pool_made := true;
     resolved := true; WSASocket := 7; WSAConnect := 0;
     WSAGetLastError := 0; WSACreateEvent := fun _ => true |}.

Definition no_transport : t :=
  {| _recv_frame_size := 0; _num_recv_frames := 0; _send_frame_size := 0;
     _num_send_frames := 0; _msb_pool := []; _mrb_pool := [];
     _pending_recv_buffs := []; _next_send_buff_index := 0;
     _sock_fd := 0 |}.

(** The transport built from [hints] on a 64-bit build. *)
Definition transport : t :=
  match @make win64 hints setup_ok with
  | inr x => x
  | inl _ => no_transport
  end.

(** The pop took 0.6 s; nothing is readable at first ([recv] returns
    SOCKET_ERROR); a datagram of 100 bytes becomes readable 0.7 s after the
    readiness wait starts. *)
Definition late_datagram : recv_world :=
  {| pop_elapsed := 6 # 10; first_recv := -1;
     wait_for_recv_ready := fun timeout => Qle_bool (7 # 10) timeout;
     second_recv := 100 |}.

(** Nothing ever arrives. *)
Definition silence : recv_world :=
  {| pop_elapsed := 0; first_recv := -1;
     wait_for_recv_ready := fun _ => false; second_recv := -1 |}.

(** A zero-byte datagram is already queued at the socket; nothing follows. *)
Definition empty_datagram_first : recv_world :=
  {| pop_elapsed := 0; first_recv := 0;
     wait_for_recv_ready := fun _ => false; second_recv := -1 |}.

(** A zero-byte datagram arrives during the readiness wait. *)
Definition empty_datagram_second : recv_world :=
  {| pop_elapsed := 0; first_recv := -1;
     wait_for_recv_ready := fun _ => true; second_recv := 0 |}.

(** The socket becomes readable, and the second [recv] fails. *)
Definition failing_second_recv : recv_world :=
  {| pop_elapsed := 0; first_recv := -1;
     wait_for_recv_ready := fun _ => true; second_recv := -1 |}.

(** A send buffer as the constructor leaves it. *)
Definition send_buffer : msb.t :=
  {| msb._sock_fd := 7; msb._frame_size := 1472; msb._committed := true;
     msb._overlapped_hEvent := true; msb._wsa_buff_buf := 0;
     msb._wsa_buff_len := 0 |}.

(** The operating system never signals completion in time. *)
Definition never : Z -> msb.wait_result := fun _ => msb.WSA_WAIT_TIMEOUT.

(** The overlapped send completes within any timeout. *)
Definition promptly : Z -> msb.wait_result := fun _ => msb.WSA_WAIT_EVENT_0.

End examples.
(** ** Sequences of receive-side calls *)
Module recv_ops.

Import udp_zero_copy_wsa_impl.

(** What the callers do with the receive side: ask for a buffer, or let go
    of a managed buffer. *)
Inductive step :=
| get_recv_buff_ (timeout : Q) (w : recv_world)
| release_ (p : ptr).

(** Runs the steps in order and collects what each [get_recv_buff]
    returned. *)
Fixpoint run `{Platform} (x : t) (steps : list step)
  : list (option ptr) * t :=
  match steps with
  | [] => ([], x)
  | get_recv_buff_ timeout w :: steps =>
      let '(buff, x', _) := get_recv_buff x timeout w in
      let '(buffs, x'') := run x' steps in
      (buff :: buffs, x'')
  | release_ p :: steps => run (release_recv_buff x p) steps
  end.

(** The queue holds no buffer twice, and every buffer in it exists and has
    length 0. *)
Definition inv (x : t) : Prop :=
  NoDup (_pending_recv_buffs x) /\
  Forall (fun p => managed_recv_size x p = Some 0) (_pending_recv_buffs x).

(** The [::recv] result that decides what [get_recv_buff] hands out: the
    first one when it is positive, the second one otherwise. *)
Definition deciding_recv (w : recv_world) : Z :=
  if 0 <? first_recv w then first_recv w else second_recv w.

End recv_ops.

(** ** The send buffers of one transport *)
Module send_ops.

Import udp_zero_copy_wsa_impl.

(** Every send buffer holds the transport's socket, as the [int] its
    constructor was given, and has the transport's send frame size. *)
Definition coherent (x : t) : Prop :=
  Forall (fun b => msb._sock_fd b = to_int (_sock_fd x) /\
                   msb._frame_size b = _send_frame_size x) (_msb_pool x).

(** Every send buffer from position [i] on has its completion event set. *)
Definition signalled_from (i : nat) (x : t) : Prop :=
  Forall (fun b => msb._overlapped_hEvent b = true) (drop i (_msb_pool x)).

(** [k] calls of [get_send_buff], with any timeouts and any answers of the
    operating system. *)
Definition calls (asks : list (Q * (Z -> msb.wait_result)))
  : list send_side.step :=
  (fun a => send_side.get_send_buff_ a.1 a.2) <$> asks.

End send_ops.

(** ** Process-wide Winsock startup *)
Module uhd_wsa_control.

Import udp_zero_copy_wsa_impl.

(** The Winsock calls of [struct uhd_wsa_control]. *)
Inductive call :=
| WSAStartup (wVersionRequested : Z)
| WSACleanup.

(** [MAKEWORD(low, high)] of the Windows SDK. *)
Definition MAKEWORD (low high : Z) : Z :=
  Z.lor (Z.land low 255) (Z.shiftl (Z.land high 255) 8).

(** [uhd_wsa_control(void)] *)
Definition startup : list call := [WSAStartup (MAKEWORD 2 2)].

(** [~uhd_wsa_control(void)] *)
Definition cleanup : list call := [WSACleanup].

(** The transport constructor together with its function-local
    [static uhd_wsa_control uhd_wsa]: [started] tells whether the static
    object exists already.  The member initialisers (the two pool
    allocations) run before the constructor body, so a failed allocation
    leaves before the static object is reached; otherwise it is constructed
    on the first pass.  Returns whether the object exists afterwards, the
    Winsock calls made for it, and what the constructor returns or throws. *)
Definition make `{Platform} (started : bool) (hints : device_addr_t)
    (w : setup_world) : bool * list call * throws t :=
  if recv_buffer_pool_made w && send_buffer_pool_made w then
    (true, if started then [] else startup,
     udp_zero_copy_wsa_impl.make hints w)
  else (started, [], udp_zero_copy_wsa_impl.make hints w).

(** Any number of constructions in one process, then the process exit, at
    which a constructed static object is destroyed: the Winsock calls made
    for [uhd_wsa] over the whole life of the process. *)
Fixpoint process `{Platform} (started : bool)
    (constructions : list (device_addr_t * setup_world)) : list call :=
  match constructions with
  | [] => if started then cleanup else []
  | (hints, w) :: constructions =>
      let '(started', calls, _) := make started hints w in
      calls ++ process started' constructions
  end.

End uhd_wsa_control.

(** [udp_zero_copy::make(addr, port, hints)] *)
Definition udp_zero_copy_make `{Platform}
    (hints : udp_zero_copy_wsa_impl.device_addr_t)
    (w : udp_zero_copy_wsa_impl.setup_world)
  : throws udp_zero_copy_wsa_impl.t :=
  udp_zero_copy_wsa_impl.make hints w.

(** Modelled from the spec: the construction-time validation of the frame
    buffer pool (uhd/transport/buffer_pool.hpp is not part of the sources).
    A world respects it when a pool is made only for a frame count and a
    frame size that are both positive. *)
Definition pools_validated `{Platform}
    (hints : udp_zero_copy_wsa_impl.device_addr_t)
    (w : udp_zero_copy_wsa_impl.setup_world) : Prop :=
  (udp_zero_copy_wsa_impl.recv_buffer_pool_made w = true ->
   0 < default DEFAULT_NUM_FRAMES (udp_zero_copy_wsa_impl.num_recv_frames hints)
   /\ 0 < default mtu (udp_zero_copy_wsa_impl.recv_frame_size hints)) /\
  (udp_zero_copy_wsa_impl.send_buffer_pool_made w = true ->
   0 < default DEFAULT_NUM_FRAMES (udp_zero_copy_wsa_impl.num_send_frames hints)
   /\ 0 < default mtu (udp_zero_copy_wsa_impl.send_frame_size hints)).

(** ** More concrete inputs *)
Module more_examples.

Import udp_zero_copy_wsa_impl.

(** A datagram of 100 bytes is already queued at the socket. *)
Definition datagram_waiting : recv_world :=
  {| pop_elapsed := 0; first_recv := 100;
     wait_for_recv_ready := fun _ => false; second_recv := -1 |}.

(** A caller receives a datagram, releases the buffer twice, and then
    waits in vain. *)
Definition recv_steps : list recv_ops.step :=
  [recv_ops.get_recv_buff_ 1 datagram_waiting;
   recv_ops.release_ 0; recv_ops.release_ 0;
   recv_ops.get_recv_buff_ 1 examples.silence].

(** A producer takes the first send buffer and sends 10 bytes with it. *)
Definition send_steps : list send_side.step :=
  [send_side.get_send_buff_ 1 examples.never;
   send_side.commit_ 0 10].

(** The pool allocation fails. *)
Definition setup_no_memory : setup_world :=
  {| recv_buffer_pool_made := false; send_buffer_pool_made := true;
     resolved := true; WSASocket := 7; WSAConnect := 0;
     WSAGetLastError := 0; WSACreateEvent := fun _ => true |}.

End more_examples.

(** * Properties *)

Import udp_zero_copy_wsa_impl.

(** ** The managed receive buffer *)

Lemma mrb_release_idle (this : ptr) (b : mrb.t) (pending : list ptr) :
  mrb._len b = 0 -> mrb.release this b pending = (b, pending).
Proof. intros Hlen. unfold mrb.release. by rewrite Hlen. Qed.

Lemma mrb_release_filled (this : ptr) (b : mrb.t) (pending : list ptr) :
  mrb._len b <> 0 ->
  mrb.release this b pending =
    ({| mrb._mem := mrb._mem b; mrb._len := 0 |}, pending ++ [this]).
Proof.
  intros Hlen. unfold mrb.release, bounded_buffer.push_with_haste.
  destruct (Z.eqb_spec (mrb._len b) 0); [contradiction | done].
Qed.

(** Fills of non-zero length.  [release()] does nothing when
    the length is 0, and otherwise sets the length to 0 and pushes the buffer
    onto the queue.  Hence a buffer filled with a non-zero length and released
    once is back at the end of the queue with length 0, and a second release
    right after changes neither the buffer nor the queue; if the buffer was
    out of a duplicate-free queue it occurs in it exactly once afterwards. *)
Theorem mrb_release_once_requeues
    (this : ptr) (b : mrb.t) (pending : list ptr) (len : Z) :
  len <> 0 ->
  (mrb._len b = 0 -> mrb.release this b pending = (b, pending)) /\
  (mrb._len b <> 0 ->
     mrb.release this b pending =
       ({| mrb._mem := mrb._mem b; mrb._len := 0 |},
        bounded_buffer.push_with_haste pending this)) /\
  let '(b1, buff) := mrb.get_new this b len in
  let '(b2, q2) := mrb.release buff b1 pending in
  let '(b3, q3) := mrb.release buff b2 q2 in
  mrb.get_size b1 = len /\
  b2 = {| mrb._mem := mrb._mem b; mrb._len := 0 |} /\
  q2 = bounded_buffer.push_with_haste pending this /\
  b3 = b2 /\ q3 = q2 /\
  (this ∉ pending -> NoDup pending -> NoDup q3).
Proof.
  intros Hlen. split; [apply mrb_release_idle |].
  split; [apply mrb_release_filled |].
  cbn [mrb.get_new].
  rewrite mrb_release_filled by done. cbn [mrb._mem].
  rewrite mrb_release_idle by done.
  repeat split; try done.
  intros Hout Hnodup. unfold bounded_buffer.push_with_haste.
  apply NoDup_app. repeat split; [done | | apply NoDup_singleton].
  intros p Hp ->%list_elem_of_singleton. contradiction.
Qed.

Lemma mrb_release_once_requeues_witness :
  1472 <> 0 /\
  recv_side.requeued_by_release 2 (mrb.make 2) [0; 1]%nat 1472.
Proof.
  assert (Hlen : 1472 <> 0) by lia.
  split; [exact Hlen |].
  destruct (mrb_release_once_requeues 2 (mrb.make 2) [0; 1]%nat 1472 Hlen)
    as (_ & _ & Hseq).
  unfold recv_side.requeued_by_release.
  cbn [mrb.get_new] in *.
  destruct (mrb.release 2 _ [0; 1]%nat) as [b2 q2].
  destruct (mrb.release 2 b2 q2) as [b3 q3].
  by destruct Hseq as (_ & _ & -> & _).
Defined.

(** A fill of length 0: the release that follows finds the length at 0 and
    returns at once, so the buffer is not pushed. *)
Lemma mrb_zero_fill_release_not_requeued :
  ~ recv_side.requeued_by_release 0 (mrb.make 0) [] 0.
Proof. vm_compute. discriminate. Qed.

(** ** The receive path of the transport *)

Section receive.

Context `{Platform}.

Lemma to_size_t_0 : to_size_t 0 = 0.
Proof. unfold to_size_t. apply Zmod_0_l. Qed.

Lemma managed_recv_size_get_new (x : t) (p : ptr) (b : mrb.t) (len : Z)
    (q : list ptr) :
  _mrb_pool x !! p = Some b ->
  managed_recv_size (set_recv x (mrb_get_new (_mrb_pool x) p len) q) p
    = Some len.
Proof.
  intros Hb. unfold managed_recv_size, mrb_get_new. cbn [set_recv _mrb_pool].
  by rewrite list_lookup_alter_eq, Hb.
Qed.

(** The fallback branch: a buffer was popped and the first read gave
    nothing. *)
Lemma get_recv_buff_fallback (x : t) (timeout : Q) (w : recv_world)
    (mrb : ptr) (q : list ptr) :
  bounded_buffer.pop_with_timed_wait (_pending_recv_buffs x) = Some (mrb, q) ->
  first_recv w <= 0 ->
  get_recv_buff x timeout w =
    if wait_for_recv_ready w timeout then
      (Some mrb,
       set_recv x
         (mrb_get_new (_mrb_pool x) mrb (to_size_t (second_recv w))) q,
       [pop_with_timed_wait timeout; recv mrb (_recv_frame_size x);
        wait_for_recv_ready_ timeout; recv mrb (_recv_frame_size x)])
    else
      (None,
       set_recv x (_mrb_pool x) (bounded_buffer.push_with_haste q mrb),
       [pop_with_timed_wait timeout; recv mrb (_recv_frame_size x);
        wait_for_recv_ready_ timeout; push_with_haste mrb]).
Proof.
  intros Hpop Hfirst. unfold get_recv_buff. rewrite Hpop.
  destruct (Z.ltb_spec 0 (first_recv w)); [lia | done].
Qed.

Lemma pop_with_timed_wait_Some {A} (pending : list A) (e : A) (q : list A) :
  bounded_buffer.pop_with_timed_wait pending = Some (e, q) ->
  pending = e :: q.
Proof. destruct pending; cbn; congruence. Qed.

(** C2 (amended).  When a buffer was popped and the first read yields no
    data, the readiness wait is given the caller's whole timeout, whatever
    time the queue pop took; if the socket becomes readable exactly one
    more read is attempted, and otherwise none is. *)
Theorem get_recv_buff_wait_gets_whole_timeout
    (x : t) (timeout : Q) (w : recv_world) (mrb : ptr) (q : list ptr) :
  bounded_buffer.pop_with_timed_wait (_pending_recv_buffs x) = Some (mrb, q) ->
  first_recv w <= 0 ->
  let calls := (get_recv_buff x timeout w).2 in
  recv_side.wait_budget calls = Some timeout /\
  calls =
    [pop_with_timed_wait timeout; recv mrb (_recv_frame_size x);
     wait_for_recv_ready_ timeout;
     if wait_for_recv_ready w timeout then recv mrb (_recv_frame_size x)
     else push_with_haste mrb] /\
  recv_side.recv_attempts calls =
    (if wait_for_recv_ready w timeout then 2 else 1)%nat /\
  forall elapsed : Q,
    get_recv_buff x timeout
      {| pop_elapsed := elapsed; first_recv := first_recv w;
         wait_for_recv_ready := wait_for_recv_ready w;
         second_recv := second_recv w |}
    = get_recv_buff x timeout w.
Proof.
  intros Hpop Hfirst calls. subst calls.
  rewrite (get_recv_buff_fallback _ _ _ _ _ Hpop Hfirst).
  split; [by destruct (wait_for_recv_ready w timeout) |].
  split; [by destruct (wait_for_recv_ready w timeout) |].
  split; [by destruct (wait_for_recv_ready w timeout) |].
  intros elapsed. unfold get_recv_buff. rewrite Hpop.
  cbn [first_recv wait_for_recv_ready second_recv].
  destruct (Z.ltb_spec 0 (first_recv w)); [lia | done].
Qed.

(** C3.  A call that pops a free buffer, reads nothing and sees the
    readiness wait time out pushes the buffer back and returns none: the
    queue holds the same buffers as before the call, as many as before,
    and no buffer has changed. *)
Theorem get_recv_buff_timeout_requeues
    (x : t) (timeout : Q) (w : recv_world) (mrb : ptr) (q : list ptr) :
  bounded_buffer.pop_with_timed_wait (_pending_recv_buffs x) = Some (mrb, q) ->
  first_recv w <= 0 ->
  wait_for_recv_ready w timeout = false ->
  let '(buff, x', calls) := get_recv_buff x timeout w in
  buff = None /\
  _pending_recv_buffs x' = bounded_buffer.push_with_haste q mrb /\
  length (_pending_recv_buffs x') = length (_pending_recv_buffs x) /\
  _pending_recv_buffs x' ≡ₚ _pending_recv_buffs x /\
  _mrb_pool x' = _mrb_pool x /\
  last calls = Some (push_with_haste mrb).
Proof.
  intros Hpop Hfirst Hwait.
  rewrite (get_recv_buff_fallback _ _ _ _ _ Hpop Hfirst), Hwait.
  apply pop_with_timed_wait_Some in Hpop.
  cbn [set_recv _pending_recv_buffs _mrb_pool]. rewrite Hpop.
  unfold bounded_buffer.push_with_haste.
  repeat split; try done.
  - rewrite length_app. cbn. lia.
  - by rewrite Permutation_app_comm.
Qed.

(** C6 (amended).  A zero-length result of the first, non-blocking read is
    not handed to the caller: it counts as no data, and when the readiness
    wait then times out the call returns none with the buffer back in the
    queue.  A zero-length result of the read that follows the readiness
    wait is handed out as a managed buffer that reports 0 bytes. *)
Theorem get_recv_buff_zero_length
    (x : t) (timeout : Q) (w : recv_world) (mrb : ptr) (q : list ptr)
    (b : mrb.t) :
  bounded_buffer.pop_with_timed_wait (_pending_recv_buffs x) = Some (mrb, q) ->
  _mrb_pool x !! mrb = Some b ->
  let '(buff, x', _) := get_recv_buff x timeout w in
  (first_recv w = 0 -> wait_for_recv_ready w timeout = false ->
     buff = None /\
     _pending_recv_buffs x' = bounded_buffer.push_with_haste q mrb) /\
  (first_recv w <= 0 -> wait_for_recv_ready w timeout = true ->
   second_recv w = 0 ->
     buff = Some mrb /\ managed_recv_size x' mrb = Some 0).
Proof.
  intros Hpop Hb.
  destruct (get_recv_buff x timeout w) as [[buff x'] calls] eqn:Hcall.
  split.
  - intros Hfirst Hwait.
    rewrite get_recv_buff_fallback with (mrb := mrb) (q := q) in Hcall
      by (done || lia).
    rewrite Hwait in Hcall. by simplify_eq.
  - intros Hfirst Hwait Hsecond.
    rewrite get_recv_buff_fallback with (mrb := mrb) (q := q) in Hcall
      by done.
    rewrite Hwait, Hsecond, to_size_t_0 in Hcall. simplify_eq.
    split; [done |]. by eapply managed_recv_size_get_new.
Qed.

(** C10.  When the read that follows the readiness wait returns a negative
    value, the call still hands out the managed buffer; the buffer reports
    that value converted to [size_t], and it is not put back in the
    queue. *)
Theorem get_recv_buff_negative_second_recv
    (x : t) (timeout : Q) (w : recv_world) (mrb : ptr) (q : list ptr)
    (b : mrb.t) :
  bounded_buffer.pop_with_timed_wait (_pending_recv_buffs x) = Some (mrb, q) ->
  _mrb_pool x !! mrb = Some b ->
  first_recv w <= 0 ->
  wait_for_recv_ready w timeout = true ->
  second_recv w < 0 ->
  let '(buff, x', calls) := get_recv_buff x timeout w in
  buff = Some mrb /\
  managed_recv_size x' mrb = Some (second_recv w mod 2 ^ size_bits) /\
  _pending_recv_buffs x' = q /\
  push_with_haste mrb ∉ calls.
Proof.
  intros Hpop Hb Hfirst Hwait Hsecond.
  rewrite (get_recv_buff_fallback _ _ _ _ _ Hpop Hfirst), Hwait.
  split; [done |]. split; [by eapply managed_recv_size_get_new |].
  split; [done |].
  intros Hin. repeat (apply elem_of_cons in Hin as [? | Hin]; [done |]).
  by apply not_elem_of_nil in Hin.
Qed.

End receive.

(** *** The receive path on a concrete transport *)

Lemma example_pop :
  bounded_buffer.pop_with_timed_wait (_pending_recv_buffs examples.transport)
    = Some (0%nat, [1; 2; 3]%nat).
Proof. reflexivity. Defined.

Lemma example_lookup :
  _mrb_pool examples.transport !! 0%nat = Some (mrb.make 0).
Proof. reflexivity. Defined.

Lemma get_recv_buff_wait_gets_whole_timeout_witness :
  bounded_buffer.pop_with_timed_wait (_pending_recv_buffs examples.transport)
    = Some (0%nat, [1; 2; 3]%nat) /\
  first_recv examples.late_datagram <= 0 /\
  recv_side.wait_budget
    (@get_recv_buff win64 examples.transport 1 examples.late_datagram).2
    = Some 1%Q.
Proof.
  assert (Hfirst : first_recv examples.late_datagram <= 0) by (cbn; lia).
  split; [exact example_pop |]. split; [exact Hfirst |].
  exact (proj1 (get_recv_buff_wait_gets_whole_timeout (H := win64)
                  examples.transport 1 examples.late_datagram 0 [1; 2; 3]%nat
                  example_pop Hfirst)).
Defined.

(** C2 as stated fails: after a pop that took 0.6 s of a 1 s timeout the
    readiness wait is still given 1 s, not the 0.4 s that remain. *)
Lemma get_recv_buff_wait_exceeds_remaining_budget :
  ~ recv_side.waits_within_remaining_budget (H := win64)
      examples.transport 1 examples.late_datagram.
Proof. vm_compute. intros Hle. by apply Hle. Qed.

(** With that budget the call returns a datagram that became readable only
    0.7 s into the wait, 1.3 s after the call started. *)
Example get_recv_buff_late_datagram :
  wait_for_recv_ready examples.late_datagram
    (recv_side.remaining_budget 1 examples.late_datagram) = false /\
  (@get_recv_buff win64 examples.transport 1 examples.late_datagram).1.1
    = Some 0%nat.
Proof. split; reflexivity. Qed.

Lemma get_recv_buff_timeout_requeues_witness :
  bounded_buffer.pop_with_timed_wait (_pending_recv_buffs examples.transport)
    = Some (0%nat, [1; 2; 3]%nat) /\
  first_recv examples.silence <= 0 /\
  wait_for_recv_ready examples.silence 1 = false /\
  let '(buff, x', _) :=
    @get_recv_buff win64 examples.transport 1 examples.silence in
  buff = None /\ length (_pending_recv_buffs x') = 4%nat.
Proof.
  assert (Hfirst : first_recv examples.silence <= 0) by (cbn; lia).
  assert (Hwait : wait_for_recv_ready examples.silence 1 = false)
    by reflexivity.
  split; [exact example_pop |]. split; [exact Hfirst |].
  split; [exact Hwait |].
  pose proof (get_recv_buff_timeout_requeues (H := win64)
                examples.transport 1 examples.silence 0 [1; 2; 3]%nat
                example_pop Hfirst Hwait) as Hthm.
  destruct (get_recv_buff examples.transport 1 examples.silence)
    as [[buff x'] calls].
  destruct Hthm as (Hnone & _ & Hlen & _).
  split; [exact Hnone | exact Hlen].
Defined.

Lemma get_recv_buff_zero_length_witness :
  bounded_buffer.pop_with_timed_wait (_pending_recv_buffs examples.transport)
    = Some (0%nat, [1; 2; 3]%nat) /\
  _mrb_pool examples.transport !! 0%nat = Some (mrb.make 0) /\
  (@get_recv_buff win64 examples.transport 1
     examples.empty_datagram_first).1.1 = None /\
  recv_side.surfaced_as_empty_buffer (H := win64)
    examples.transport 1 examples.empty_datagram_second.
Proof.
  split; [exact example_pop |]. split; [exact example_lookup |].
  split.
  - pose proof (get_recv_buff_zero_length (H := win64)
                  examples.transport 1 examples.empty_datagram_first
                  0 [1; 2; 3]%nat (mrb.make 0) example_pop example_lookup)
      as Hthm.
    destruct (get_recv_buff examples.transport 1
                examples.empty_datagram_first) as [[buff x'] calls].
    destruct Hthm as [Hfirst _].
    exact (proj1 (Hfirst eq_refl eq_refl)).
  - pose proof (get_recv_buff_zero_length (H := win64)
                  examples.transport 1 examples.empty_datagram_second
                  0 [1; 2; 3]%nat (mrb.make 0) example_pop example_lookup)
      as Hthm.
    unfold recv_side.surfaced_as_empty_buffer.
    destruct (get_recv_buff examples.transport 1
                examples.empty_datagram_second) as [[buff x'] calls].
    destruct Hthm as [_ Hsecond].
    exists 0%nat. apply Hsecond; [cbn; lia | reflexivity | reflexivity].
Defined.

(** C6 as stated fails: a zero-byte datagram picked up by the first read is
    dropped, and with nothing else arriving the call returns none. *)
Lemma get_recv_buff_drops_empty_datagram :
  ~ recv_side.surfaced_as_empty_buffer (H := win64)
      examples.transport 1 examples.empty_datagram_first.
Proof. vm_compute. intros (p & Hp & _). discriminate. Qed.

Lemma get_recv_buff_negative_second_recv_witness :
  bounded_buffer.pop_with_timed_wait (_pending_recv_buffs examples.transport)
    = Some (0%nat, [1; 2; 3]%nat) /\
  _mrb_pool examples.transport !! 0%nat = Some (mrb.make 0) /\
  first_recv examples.failing_second_recv <= 0 /\
  wait_for_recv_ready examples.failing_second_recv 1 = true /\
  second_recv examples.failing_second_recv < 0 /\
  let '(buff, x', _) :=
    @get_recv_buff win64 examples.transport 1 examples.failing_second_recv in
  buff = Some 0%nat /\
  managed_recv_size x' 0 = Some (2 ^ 64 - 1) /\
  _pending_recv_buffs x' = [1; 2; 3]%nat.
Proof.
  assert (Hfirst : first_recv examples.failing_second_recv <= 0)
    by (cbn; lia).
  assert (Hwait : wait_for_recv_ready examples.failing_second_recv 1 = true)
    by reflexivity.
  assert (Hsecond : second_recv examples.failing_second_recv < 0)
    by (cbn; lia).
  split; [exact example_pop |]. split; [exact example_lookup |].
  split; [exact Hfirst |]. split; [exact Hwait |]. split; [exact Hsecond |].
  pose proof (get_recv_buff_negative_second_recv (H := win64)
                examples.transport 1 examples.failing_second_recv
                0 [1; 2; 3]%nat (mrb.make 0)
                example_pop example_lookup Hfirst Hwait Hsecond) as Hthm.
  destruct (get_recv_buff examples.transport 1 examples.failing_second_recv)
    as [[buff x'] calls].
  destruct Hthm as (Hbuff & Hsize & Hqueue & _).
  split; [exact Hbuff |]. split; [exact Hsize | exact Hqueue].
Defined.

(** Unfolds the operations of [throws] in a hypothesis. *)
Ltac unfold_throws H :=
  cbn in H; unfold mret, mbind, throws_ret, throws_bind, throw in H; cbn in H.

(** ** The managed send buffer *)

Section send_buffer.

Context `{Platform}.

Lemma msb_get_new_timeout (this : ptr) (b : msb.t) (timeout : Q) (index : Z)
    (os : Z -> msb.wait_result) :
  msb.WSAWaitForMultipleEvents (msb._overlapped_hEvent b)
    (DWORD_of_double (timeout * 1000)) os = msb.WSA_WAIT_TIMEOUT ->
  msb.get_new this b timeout index os = (None, b, index).
Proof. intros Hwait. unfold msb.get_new. rewrite Hwait. by case_decide. Qed.

Lemma msb_get_new_success (this : ptr) (b : msb.t) (timeout : Q) (index : Z)
    (os : Z -> msb.wait_result) :
  msb.WSAWaitForMultipleEvents (msb._overlapped_hEvent b)
    (DWORD_of_double (timeout * 1000)) os <> msb.WSA_WAIT_TIMEOUT ->
  msb.get_new this b timeout index os =
    (Some this,
     {| msb._sock_fd := msb._sock_fd b; msb._frame_size := msb._frame_size b;
        msb._committed := false; msb._overlapped_hEvent := false;
        msb._wsa_buff_buf := msb._wsa_buff_buf b;
        msb._wsa_buff_len := msb._frame_size b |},
     to_size_t (index + 1)).
Proof. intros Hwait. unfold msb.get_new. by case_decide. Qed.

Lemma msb_get_new_signalled (this : ptr) (b : msb.t) (timeout : Q)
    (index : Z) (os : Z -> msb.wait_result) :
  msb._overlapped_hEvent b = true ->
  (msb.get_new this b timeout index os).1.1 = Some this.
Proof.
  intros Hevent. rewrite msb_get_new_success; [done |].
  unfold msb.WSAWaitForMultipleEvents. by rewrite Hevent.
Qed.

(** C5.  The acquire operation returns none exactly when the wait times
    out, and then leaves the buffer as it was, committed flag and length
    included.  Otherwise it returns the buffer with the committed flag
    cleared and the length set to the send frame size; so a buffer
    committed with [L] bytes reports the frame size once acquired again,
    whatever [L] was. *)
Theorem msb_get_new_resets_length (this : ptr) (b : msb.t) (timeout : Q)
    (index : Z) (os : Z -> msb.wait_result) (L : Z) :
  (let '(buff, b', _) := msb.get_new this b timeout index os in
   (buff = None <->
      msb.WSAWaitForMultipleEvents (msb._overlapped_hEvent b)
        (DWORD_of_double (timeout * 1000)) os = msb.WSA_WAIT_TIMEOUT) /\
   match buff with
   | None =>
       b' = b /\ msb._committed b' = msb._committed b /\
       msb.get_size b' = msb.get_size b
   | Some p =>
       p = this /\ msb._committed b' = false /\
       msb.get_size b' = msb._frame_size b /\
       msb._frame_size b' = msb._frame_size b
   end) /\
  (let '(b1, _) := msb.commit b L in
   let '(buff, b2, _) := msb.get_new this b1 timeout index os in
   (if msb._committed b then b1 = b else msb.get_size b1 = L) /\
   match buff with
   | None => b2 = b1
   | Some _ => msb.get_size b2 = msb._frame_size b
   end).
Proof.
  split.
  - destruct (decide (msb.WSAWaitForMultipleEvents (msb._overlapped_hEvent b)
                (DWORD_of_double (timeout * 1000)) os = msb.WSA_WAIT_TIMEOUT))
      as [Hwait | Hwait].
    + rewrite msb_get_new_timeout by done. by repeat split.
    + rewrite msb_get_new_success by done. by repeat split.
  - destruct (msb.commit b L) as [b1 calls] eqn:Hcommit.
    assert (msb._frame_size b1 = msb._frame_size b) as Hsize.
    { unfold msb.commit in Hcommit.
      destruct (msb._committed b), (L =? 0); by simplify_eq. }
    assert (if msb._committed b then b1 = b else msb.get_size b1 = L)
      as Hcommitted.
    { unfold msb.commit in Hcommit.
      destruct (msb._committed b), (L =? 0); by simplify_eq. }
    destruct (decide (msb.WSAWaitForMultipleEvents (msb._overlapped_hEvent b1)
                (DWORD_of_double (timeout * 1000)) os = msb.WSA_WAIT_TIMEOUT))
      as [Hwait | Hwait].
    + rewrite msb_get_new_timeout by done. by split.
    + rewrite msb_get_new_success by done. by split.
Qed.

(** The send buffers the pool loop builds. *)
Lemma make_msb_pool_fresh (slices : list nat) (sock_fd frame_size : Z)
    (ok : nat -> bool) (pool : list msb.t) :
  make_msb_pool slices sock_fd frame_size ok = inr pool ->
  length pool = length slices /\
  Forall (fun b => msb._committed b = true /\ msb.get_size b = 0 /\
                   msb._overlapped_hEvent b = true /\
                   msb._frame_size b = frame_size) pool.
Proof.
  revert pool. induction slices as [| i slices IH]; intros pool Hpool.
  - unfold_throws Hpool. simplify_eq. split; [done | constructor].
  - cbn [make_msb_pool] in Hpool. unfold msb.make, UHD_ASSERT_THROW in Hpool.
    destruct (ok i); unfold_throws Hpool; [| done].
    destruct (make_msb_pool slices sock_fd frame_size ok) as [e | pool'];
      [done |].
    simplify_eq.
    destruct (IH pool' eq_refl) as [Hlen Hall].
    split; [cbn; by rewrite Hlen |]. by constructor.
Qed.

(** C7.  [commit(len)] does nothing on a committed buffer.  Otherwise it
    marks the buffer committed and stores the length; for length 0 it sets
    the completion event and submits nothing, for any other length it
    submits the send.  The constructor leaves every send buffer committed
    with length 0 and the event set, having submitted no send, so that the
    first acquire succeeds whatever the timeout; this holds for every send
    buffer of a constructed transport. *)
Theorem msb_commit_and_construction
    (b : msb.t) (len : Z) (mem : nat) (sock_fd frame_size : Z) :
  (let '(b', calls) := msb.commit b len in
   if msb._committed b then b' = b /\ calls = []
   else
     msb._committed b' = true /\ msb.get_size b' = len /\
     if len =? 0
     then msb._overlapped_hEvent b' = true /\ calls = [msb.WSASetEvent]
     else msb._overlapped_hEvent b' = msb._overlapped_hEvent b /\
          calls = [msb.WSASend (msb._sock_fd b) len]) /\
  (exists b0,
     msb.make mem sock_fd frame_size true = inr (b0, [msb.WSASetEvent]) /\
     msb._committed b0 = true /\ msb.get_size b0 = 0 /\
     forall this timeout index os,
       (msb.get_new this b0 timeout index os).1.1 = Some this) /\
  (forall hints w x,
     make hints w = inr x ->
     Forall (fun b0 =>
               msb._committed b0 = true /\ msb.get_size b0 = 0 /\
               forall this timeout index os,
                 (msb.get_new this b0 timeout index os).1.1 = Some this)
       (_msb_pool x)).
Proof.
  split; [| split].
  - unfold msb.commit.
    destruct (msb._committed b); [done |].
    destruct (len =? 0); by repeat split.
  - eexists. split; [reflexivity |]. do 2 (split; [reflexivity |]).
    intros. by apply msb_get_new_signalled.
  - intros hints w x Hmake. unfold make in Hmake.
    unfold buffer_pool_make, UHD_ASSERT_THROW in Hmake.
    repeat match type of Hmake with
           | context [if ?c then _ else _] =>
               destruct c; unfold_throws Hmake; try done
           end.
    destruct (make_msb_pool _ _ _ _) as [e | pool] eqn:Hpool;
      unfold_throws Hmake; [done |].
    simplify_eq. cbn [_msb_pool].
    apply make_msb_pool_fresh in Hpool as [_ Hall].
    eapply Forall_impl; [exact Hall |].
    intros b0 (Hc & Hl & He & _). repeat split; [done .. |].
    intros. by apply msb_get_new_signalled.
Qed.

End send_buffer.

(** ** The send path of the transport *)

Section send_path.

Context `{Platform}.

Lemma get_send_buff_unfold (x : t) (timeout : Q)
    (os : Z -> msb.wait_result) (b : msb.t) :
  _msb_pool x !! Z.to_nat (send_side.wrapped x) = Some b ->
  get_send_buff x timeout os =
    Some ((msb.get_new (Z.to_nat (send_side.wrapped x)) b timeout (send_side.wrapped x) os).1.1,
          set_send x
            (<[Z.to_nat (send_side.wrapped x) :=
                 (msb.get_new (Z.to_nat (send_side.wrapped x)) b timeout
                    (send_side.wrapped x) os).1.2]> (_msb_pool x))
            (msb.get_new (Z.to_nat (send_side.wrapped x)) b timeout
               (send_side.wrapped x) os).2).
Proof.
  intros Hb. unfold get_send_buff. fold (send_side.wrapped x). rewrite Hb. cbn.
  by destruct (msb.get_new _ _ _ _ _) as [[buff b'] index'].
Qed.

Lemma wrapped_range (x : t) :
  send_side.wf x -> 0 < _num_send_frames x ->
  0 <= send_side.wrapped x < _num_send_frames x /\
  is_Some (_msb_pool x !! Z.to_nat (send_side.wrapped x)).
Proof.
  intros (Hlen & Hindex & _) Hpos. unfold send_side.wrapped.
  assert (0 <= (if _next_send_buff_index x =? _num_send_frames x
                then 0 else _next_send_buff_index x)
          < _num_send_frames x) as Hrange
    by (destruct (Z.eqb_spec (_next_send_buff_index x)
                    (_num_send_frames x)); lia).
  split; [done |]. apply lookup_lt_is_Some. lia.
Qed.

Lemma wrapped_set_send (x : t) (pool : list msb.t) (index : Z) :
  0 <= index <= _num_send_frames x -> 0 < _num_send_frames x ->
  send_side.wrapped (set_send x pool index) = index mod _num_send_frames x.
Proof.
  intros Hindex Hpos. unfold send_side.wrapped. cbn.
  destruct (Z.eqb_spec index (_num_send_frames x)) as [-> | Hne].
  - by rewrite Z_mod_same_full.
  - rewrite Z.mod_small; lia.
Qed.

Lemma round_robin_S (n start : Z) (k : nat) :
  send_side.round_robin n start (S k) =
    Z.to_nat (start mod n) :: send_side.round_robin n ((start + 1) mod n) k.
Proof.
  unfold send_side.round_robin. cbn [seq fmap list_fmap].
  rewrite Z.add_0_r. f_equal.
  rewrite <- fmap_S_seq, <- list_fmap_compose.
  apply list_fmap_ext. intros _ j _. cbn.
  rewrite Zplus_mod_idemp_l. do 2 f_equal. lia.
Qed.

Lemma run_round_robin (steps : list send_side.step) (x : t) :
  send_side.wf x -> 0 < _num_send_frames x ->
  exists buffs x',
    send_side.run x steps = Some (buffs, x') /\
    send_side.handed_out buffs =
      send_side.round_robin (_num_send_frames x) (send_side.wrapped x)
        (length (send_side.handed_out buffs)).
Proof.
  revert x. induction steps as [| [timeout os | p len] steps IH];
    intros x Hwf Hpos.
  - by exists [], x.
  - destruct (wrapped_range x Hwf Hpos) as [Hrange [b Hb]].
    destruct Hwf as (Hlen & Hindex & Hsize).
    cbn [send_side.run]. rewrite (get_send_buff_unfold _ _ _ _ Hb).
    set (i := send_side.wrapped x) in *.
    destruct (decide (msb.WSAWaitForMultipleEvents (msb._overlapped_hEvent b)
                (DWORD_of_double (timeout * 1000)) os = msb.WSA_WAIT_TIMEOUT))
      as [Hwait | Hwait].
    + rewrite msb_get_new_timeout by done. cbn.
      match goal with
      | |- context [send_side.run ?x1 steps] =>
          destruct (IH x1) as (buffs & x' & Hrun & Hout)
      end.
      { repeat split; cbn; rewrite ?length_insert; lia. }
      { done. }
      rewrite Hrun. cbn. exists (None :: buffs), x'. split; [done |].
      rewrite wrapped_set_send in Hout by (done || lia).
      rewrite Z.mod_small in Hout by lia. exact Hout.
    + rewrite msb_get_new_success by done. cbn.
      assert (to_size_t (i + 1) = i + 1) as ->
        by (unfold to_size_t; apply Z.mod_small; lia).
      match goal with
      | |- context [send_side.run ?x1 steps] =>
          destruct (IH x1) as (buffs & x' & Hrun & Hout)
      end.
      { repeat split; cbn; rewrite ?length_insert; lia. }
      { done. }
      rewrite Hrun. cbn.
      exists (Some (Z.to_nat i) :: buffs), x'. split; [done |].
      rewrite wrapped_set_send in Hout by (done || lia).
      cbn in Hout.
      change (send_side.handed_out (Some (Z.to_nat i) :: buffs))
        with (Z.to_nat i :: send_side.handed_out buffs).
      cbn [length]. rewrite round_robin_S, Z.mod_small by lia.
      by f_equal.
  - cbn [send_side.run].
    assert (send_side.wf (commit_send_buff x p len).1 /\
            _num_send_frames (commit_send_buff x p len).1
              = _num_send_frames x /\
            send_side.wrapped (commit_send_buff x p len).1 = send_side.wrapped x)
      as (Hwf' & Hn & Hw).
    { unfold commit_send_buff.
      destruct (_msb_pool x !! p) as [b |]; [| done].
      destruct (msb.commit b len) as [b' calls].
      destruct Hwf as (Hlen & Hindex & Hsize).
      repeat split; cbn; rewrite ?length_insert; lia. }
    destruct (IH _ Hwf') as (buffs & x' & Hrun & Hout); [lia |].
    exists buffs, x'. split; [done |]. by rewrite Hn, Hw in Hout.
Qed.

(** C4.  On a transport with at least one send buffer, in a state as the
    constructor and the send-side calls leave it ([send_side.wf]),
    [get_send_buff] wraps the index to 0 when it has reached the number of
    send frames and asks the buffer at that index.  If the acquire times out the call
    returns none and the index stays there, so the next call asks the same
    buffer; if it succeeds the call returns that buffer and the index is
    one further.  Over any sequence of calls, with commits in between, the
    buffers handed out are consecutive positions of the ring: from a new
    transport 0, 1, ..., [_num_send_frames] - 1, 0, ... *)
Theorem get_send_buff_round_robin (x : t) :
  send_side.wf x ->
  0 < _num_send_frames x ->
  let index :=
    if _next_send_buff_index x =? _num_send_frames x then 0
    else _next_send_buff_index x in
  (forall timeout os,
     exists b,
       _msb_pool x !! Z.to_nat index = Some b /\
       get_send_buff x timeout os =
         if decide (msb.WSAWaitForMultipleEvents (msb._overlapped_hEvent b)
                      (DWORD_of_double (timeout * 1000)) os
                    = msb.WSA_WAIT_TIMEOUT)
         then Some (None, set_send x (_msb_pool x) index)
         else Some (Some (Z.to_nat index),
                    set_send x
                      (<[Z.to_nat index :=
                           (msb.get_new (Z.to_nat index) b timeout index
                              os).1.2]> (_msb_pool x))
                      (index + 1))) /\
  (forall steps,
     exists buffs x',
       send_side.run x steps = Some (buffs, x') /\
       send_side.handed_out buffs =
         send_side.round_robin (_num_send_frames x) index
           (length (send_side.handed_out buffs))).
Proof.
  intros Hwf Hpos index. split.
  - intros timeout os.
    destruct (wrapped_range x Hwf Hpos) as [Hrange [b Hb]].
    destruct Hwf as (Hlen & Hindex & Hsize).
    exists b. split; [exact Hb |].
    rewrite (get_send_buff_unfold _ _ _ _ Hb). fold index.
    change (send_side.wrapped x) with index in *.
    case_decide as Hwait.
    + rewrite msb_get_new_timeout by done. cbn.
      by rewrite list_insert_id.
    + rewrite msb_get_new_success by done. cbn.
      assert (to_size_t (index + 1) = index + 1) as ->
        by (unfold to_size_t; apply Z.mod_small; lia).
      done.
  - intros steps. apply (run_round_robin steps x Hwf Hpos).
Qed.

(** C8 (amended).  The rotating index is advanced by the send buffer's own
    acquire operation, through the reference [get_send_buff] hands to it:
    [get_new] returns the index one further when it succeeds and
    unchanged when it times out.  [get_send_buff] itself only wraps the
    index to 0 and keeps what [get_new] left; apart from the index and the
    acquired buffer the transport is unchanged. *)
Theorem get_new_advances_callers_index (x : t) (timeout : Q)
    (os : Z -> msb.wait_result) (this : ptr) (b0 : msb.t) (index0 : Z) :
  (msb.get_new this b0 timeout index0 os).2 =
    match (msb.get_new this b0 timeout index0 os).1.1 with
    | Some _ => to_size_t (index0 + 1)
    | None => index0
    end /\
  let index :=
    if _next_send_buff_index x =? _num_send_frames x then 0
    else _next_send_buff_index x in
  match get_send_buff x timeout os with
  | Some (buff, x') =>
      exists b,
        _msb_pool x !! Z.to_nat index = Some b /\
        let '(buff0, b', index') :=
          msb.get_new (Z.to_nat index) b timeout index os in
        buff = buff0 /\
        _next_send_buff_index x' = index' /\
        _msb_pool x' = <[Z.to_nat index := b']> (_msb_pool x) /\
        x' = set_send x (_msb_pool x') (_next_send_buff_index x')
  | None => _msb_pool x !! Z.to_nat index = None
  end.
Proof.
  split.
  - unfold msb.get_new. by case_decide.
  - intros index.
    destruct (_msb_pool x !! Z.to_nat index) as [b |] eqn:Hb.
    + rewrite (get_send_buff_unfold _ _ _ _ Hb).
      exists b. split; [done |].
      change (send_side.wrapped x) with index.
      by destruct (msb.get_new _ _ _ _ _) as [[buff b'] index'].
    + unfold get_send_buff. fold index. by rewrite Hb.
Qed.

(** C9.  When the configured number of send frames exceeds
    [WSA_MAXIMUM_WAIT_EVENTS] the constructor throws, whatever the outside
    world answers, so that no transport exists: the failed assertion if
    both pools were allocated, and the allocation failure otherwise.  When
    the number is within the limit the constructor does not throw that
    assertion, and it returns a transport if every setup call succeeds. *)
Theorem make_checks_num_send_frames
    (hints : device_addr_t) (w : setup_world) :
  let n := cast (num_send_frames hints) DEFAULT_NUM_FRAMES in
  let failed :=
    assertion_error "_num_send_frames <= WSA_MAXIMUM_WAIT_EVENTS" in
  if WSA_MAXIMUM_WAIT_EVENTS <? n then
    make hints w =
      inl (if recv_buffer_pool_made w && send_buffer_pool_made w
           then failed else bad_alloc)
  else
    make hints w <> inl failed /\
    (if recv_buffer_pool_made w && send_buffer_pool_made w && resolved w
        && negb (WSASocket w =? INVALID_SOCKET) && (WSAConnect w =? 0)
        && forallb (WSACreateEvent w) (seq 0 (Z.to_nat n))
     then is_Some (match make hints w with inr x => Some x | _ => None end)
     else True).
Proof.
  intros n failed. unfold make. fold n.
  unfold buffer_pool_make, UHD_ASSERT_THROW.
  destruct (Z.ltb_spec WSA_MAXIMUM_WAIT_EVENTS n) as [Hgt | Hle].
  - destruct (recv_buffer_pool_made w); [| done].
    destruct (send_buffer_pool_made w); [| done].
    destruct (Z.leb_spec n WSA_MAXIMUM_WAIT_EVENTS); [lia | done].
  - destruct (Z.leb_spec n WSA_MAXIMUM_WAIT_EVENTS); [| lia].
    assert (forall slices sock fs,
               (forallb (WSACreateEvent w) slices = true ->
                is_Some (match make_msb_pool slices sock fs (WSACreateEvent w)
                         with inr p => Some p | _ => None end)) /\
               make_msb_pool slices sock fs (WSACreateEvent w) <> inl failed)
      as Hpool.
    { induction slices as [| i slices IH]; intros sock fs.
      - split; [by eexists | done].
      - cbn [make_msb_pool forallb]. unfold msb.make, UHD_ASSERT_THROW.
        destruct (WSACreateEvent w i); cbn; [| split; [done | discriminate]].
        destruct (IH sock fs) as [IHok IHne].
        destruct (make_msb_pool slices sock fs (WSACreateEvent w))
          as [e | pool]; cbn.
        + split; [exact IHok | exact IHne].
        + split; [by eexists | done]. }
    destruct (recv_buffer_pool_made w); [| done].
    destruct (send_buffer_pool_made w); [| done].
    destruct (resolved w); [| done].
    destruct (WSASocket w =? INVALID_SOCKET); [done |].
    destruct (WSAConnect w =? 0); [| done]. cbn.
    specialize (Hpool (seq 0 (Z.to_nat n)) (to_int (WSASocket w))
                  (cast (send_frame_size hints) mtu)) as [Hok Hne].
    destruct (make_msb_pool _ _ _ _) as [e | pool]; cbn.
    + split; [congruence |].
      destruct (forallb _ _); [| done].
      by destruct (Hok eq_refl) as [pool [=]].
    + split; [done |]. destruct (forallb _ _); [by eexists | done].
Qed.

End send_path.

(** *** The send path on a concrete transport *)

Lemma example_send_wf : send_side.wf (H := win64) examples.transport.
Proof. repeat split; vm_compute; congruence. Defined.

Lemma example_make :
  @make win64 examples.hints examples.setup_ok = inr examples.transport.
Proof. reflexivity. Defined.

Lemma get_send_buff_round_robin_witness :
  send_side.wf (H := win64) examples.transport /\
  0 < _num_send_frames examples.transport /\
  exists buffs x',
    send_side.run (H := win64) examples.transport
      [send_side.get_send_buff_ 1 examples.never;
       send_side.get_send_buff_ 1 examples.never;
       send_side.get_send_buff_ 1 examples.never;
       send_side.commit_ 0 10;
       send_side.get_send_buff_ 1 examples.promptly]
      = Some (buffs, x') /\
    send_side.handed_out buffs =
      send_side.round_robin 2 0 (length (send_side.handed_out buffs)).
Proof.
  assert (Hpos : 0 < _num_send_frames examples.transport) by reflexivity.
  split; [exact example_send_wf |]. split; [exact Hpos |].
  exact (proj2 (get_send_buff_round_robin (H := win64) examples.transport
                  example_send_wf Hpos) _).
Defined.

(** The run of the witness: both buffers are handed out at once, the third
    call times out on buffer 0 (acquired, not yet committed), and after the
    commit the same buffer 0 is handed out again. *)
Example send_run_example :
  fst <$> send_side.run (H := win64) examples.transport
    [send_side.get_send_buff_ 1 examples.never;
     send_side.get_send_buff_ 1 examples.never;
     send_side.get_send_buff_ 1 examples.never;
     send_side.commit_ 0 10;
     send_side.get_send_buff_ 1 examples.promptly]
  = Some [Some 0; Some 1; None; Some 0]%nat.
Proof. reflexivity. Qed.

(** A buffer committed with 10 bytes reports 1472 bytes once acquired. *)
Example msb_round_trip_example :
  let b := (@msb.get_new win64 0 examples.send_buffer 1 0 examples.never).1.2 in
  let b1 := (msb.commit b 10).1 in
  let b2 := (@msb.get_new win64 0 b1 1 1 examples.promptly).1.2 in
  msb.get_size b1 = 10 /\ msb.get_size b2 = 1472.
Proof. split; reflexivity. Qed.

Lemma msb_commit_and_construction_witness :
  @make win64 examples.hints examples.setup_ok = inr examples.transport /\
  Forall (fun b0 =>
            msb._committed b0 = true /\ msb.get_size b0 = 0 /\
            forall this timeout index os,
              (@msb.get_new win64 this b0 timeout index os).1.1 = Some this)
    (_msb_pool examples.transport).
Proof.
  split; [exact example_make |].
  exact (proj2 (proj2 (msb_commit_and_construction (H := win64)
                         examples.send_buffer 0 0 7 1472))
           examples.hints examples.setup_ok examples.transport example_make).
Defined.

(** C8 as stated fails: acquiring a send buffer with the index at 0 leaves
    the index at 1. *)
Lemma msb_get_new_changes_index :
  ~ send_side.acquire_keeps_index (H := win64)
      0 examples.send_buffer 1 0 examples.never.
Proof. vm_compute. discriminate. Qed.

(** With 65 send frames the constructor throws the failed assertion; with 2
    it returns the transport. *)
Example make_greedy_example :
  @make win64 examples.greedy_hints examples.setup_ok =
    inl (assertion_error "_num_send_frames <= WSA_MAXIMUM_WAIT_EVENTS").
Proof. reflexivity. Qed.

(** ** What the constructor establishes *)

Section construction.

Context `{Platform}.

Lemma foldl_push_with_haste (q slices : list nat) :
  foldl bounded_buffer.push_with_haste q slices = q ++ slices.
Proof.
  revert q. induction slices as [| i slices IH]; intros q; cbn.
  - by rewrite app_nil_r.
  - rewrite IH. unfold bounded_buffer.push_with_haste.
    by rewrite <- app_assoc.
Qed.

Lemma make_inr (hints : device_addr_t) (w : setup_world) (x : t) :
  make hints w = inr x ->
  exists msb_pool,
    make_msb_pool
      (seq 0 (Z.to_nat (cast (num_send_frames hints) DEFAULT_NUM_FRAMES)))
      (to_int (WSASocket w)) (cast (send_frame_size hints) mtu)
      (WSACreateEvent w)
      = inr msb_pool /\
    cast (num_send_frames hints) DEFAULT_NUM_FRAMES
      <= WSA_MAXIMUM_WAIT_EVENTS /\
    x = {| _recv_frame_size := cast (recv_frame_size hints) mtu;
           _num_recv_frames := cast (num_recv_frames hints) DEFAULT_NUM_FRAMES;
           _send_frame_size := cast (send_frame_size hints) mtu;
           _num_send_frames := cast (num_send_frames hints) DEFAULT_NUM_FRAMES;
           _msb_pool := msb_pool;
           _mrb_pool :=
             mrb.make <$>
               seq 0 (Z.to_nat
                        (cast (num_recv_frames hints) DEFAULT_NUM_FRAMES));
           _pending_recv_buffs :=
             seq 0 (Z.to_nat
                      (cast (num_recv_frames hints) DEFAULT_NUM_FRAMES));
           _next_send_buff_index := 0;
           _sock_fd := WSASocket w |}.
Proof.
  intros Hmake. unfold make in Hmake.
  unfold buffer_pool_make, UHD_ASSERT_THROW in Hmake.
  destruct (Z.leb_spec (cast (num_send_frames hints) DEFAULT_NUM_FRAMES)
              WSA_MAXIMUM_WAIT_EVENTS) as [Hle | Hgt].
  - repeat match type of Hmake with
           | context [if ?c then _ else _] =>
               destruct c; unfold_throws Hmake; try done
           end.
    destruct (make_msb_pool _ _ _ _) as [e | pool] eqn:Hpool;
      unfold_throws Hmake; [done |].
    exists pool. split; [done |]. split; [done |].
    rewrite foldl_push_with_haste in Hmake. by simplify_eq.
  - repeat match type of Hmake with
           | context [if ?c then _ else _] =>
               destruct c; unfold_throws Hmake; try done
           end.
Qed.

(** A constructed transport has one send buffer per configured frame and
    starts at index 0; all its receive buffers are in the queue, each once. *)
Lemma make_wf (hints : device_addr_t) (w : setup_world) (x : t) :
  make hints w = inr x ->
  0 <= cast (num_send_frames hints) DEFAULT_NUM_FRAMES ->
  WSA_MAXIMUM_WAIT_EVENTS < 2 ^ size_bits ->
  send_side.wf x /\ _next_send_buff_index x = 0 /\
  recv_side.wf x /\ NoDup (_pending_recv_buffs x) /\
  length (_pending_recv_buffs x) = length (_mrb_pool x).
Proof.
  intros (pool & Hpool & Hle & ->)%make_inr Hnonneg Hmax.
  apply make_msb_pool_fresh in Hpool as [Hlen _].
  rewrite length_seq in Hlen. cbn.
  split; [repeat split; cbn; lia |]. split; [done |].
  split; [| split].
  - unfold recv_side.wf. cbn. rewrite length_fmap, length_seq.
    apply Forall_forall. intros p Hp%elem_of_seq. lia.
  - apply NoDup_seq.
  - by rewrite length_fmap.
Qed.

(** [get_recv_buff] keeps the queue pointing into the pool. *)
Lemma get_recv_buff_wf (x : t) (timeout : Q) (w : recv_world) :
  recv_side.wf x -> recv_side.wf (get_recv_buff x timeout w).1.2.
Proof.
  unfold recv_side.wf, get_recv_buff. intros Hwf.
  destruct (_pending_recv_buffs x) as [| mrb q] eqn:Hq; cbn; [by rewrite Hq |].
  apply Forall_cons in Hwf as [Hmrb Hwf].
  destruct (0 <? first_recv w); cbn.
  - unfold mrb_get_new. by rewrite length_alter.
  - destruct (wait_for_recv_ready w timeout); cbn.
    + unfold mrb_get_new. by rewrite length_alter.
    + unfold bounded_buffer.push_with_haste.
      apply Forall_app. split; [done |]. by apply Forall_singleton.
Qed.

(** A zero-length fill at the transport level: after the caller lets go of
    the managed buffer that reports 0 bytes, the buffer is in nobody's hands
    and not in the queue. *)
Lemma release_after_zero_length (x : t) (timeout : Q) (w : recv_world)
    (mrb : ptr) (q : list ptr) (b : mrb.t) :
  bounded_buffer.pop_with_timed_wait (_pending_recv_buffs x) = Some (mrb, q) ->
  _mrb_pool x !! mrb = Some b ->
  first_recv w <= 0 ->
  wait_for_recv_ready w timeout = true ->
  second_recv w = 0 ->
  _pending_recv_buffs
    (release_recv_buff (get_recv_buff x timeout w).1.2 mrb) = q.
Proof.
  intros Hpop Hb Hfirst Hwait Hsecond.
  rewrite (get_recv_buff_fallback _ _ _ _ _ Hpop Hfirst), Hwait, Hsecond.
  rewrite to_size_t_0. unfold release_recv_buff, mrb_get_new. cbn.
  by rewrite list_lookup_alter_eq, Hb.
Qed.

End construction.

(** * Further properties of the receive side *)

Section receive_more.

Context `{Platform}.

Lemma set_recv_same (x : t) :
  set_recv x (_mrb_pool x) (_pending_recv_buffs x) = x.
Proof. by destruct x. Qed.

Lemma managed_recv_size_set_recv (x : t) (pool : list mrb.t) (q : list ptr)
    (p : ptr) :
  managed_recv_size (set_recv x pool q) p = mrb.get_size <$> pool !! p.
Proof. done. Qed.

(** X1.  Whatever the queue holds and whatever the socket answers,
    [get_recv_buff] moves at most one buffer: a buffer it hands out was in
    the queue, and the queue afterwards holds the other buffers that were in
    it and nothing else; when it hands out nothing the queue holds the same
    buffers as before and no buffer has changed.  The pool keeps its size,
    the send side is untouched, at most two reads are attempted, and no read
    is attempted exactly when the queue was empty. *)
Theorem get_recv_buff_moves_one_buffer
    (x : t) (timeout : Q) (w : recv_world) :
  let '(buff, x', calls) := get_recv_buff x timeout w in
  match buff with
  | Some p => _pending_recv_buffs x ≡ₚ p :: _pending_recv_buffs x'
  | None => _pending_recv_buffs x' ≡ₚ _pending_recv_buffs x /\
            _mrb_pool x' = _mrb_pool x
  end /\
  length (_mrb_pool x') = length (_mrb_pool x) /\
  _msb_pool x' = _msb_pool x /\
  _next_send_buff_index x' = _next_send_buff_index x /\
  (recv_side.recv_attempts calls <= 2)%nat /\
  (recv_side.recv_attempts calls = 0%nat <-> _pending_recv_buffs x = []).
Proof.
  unfold get_recv_buff.
  destruct (_pending_recv_buffs x) as [| p q] eqn:Hq; cbn.
  { rewrite Hq. repeat split; (done || lia). }
  destruct (0 <? first_recv w); cbn.
  { unfold mrb_get_new. rewrite length_alter.
    repeat split; (done || lia). }
  destruct (wait_for_recv_ready w timeout); cbn.
  { unfold mrb_get_new. rewrite length_alter.
    repeat split; (done || lia). }
  unfold bounded_buffer.push_with_haste.
  repeat split; try (done || lia).
  by rewrite Permutation_app_comm.
Qed.

Lemma inv_get_recv_buff (x : t) (timeout : Q) (w : recv_world) :
  recv_ops.inv x -> recv_ops.inv (get_recv_buff x timeout w).1.2.
Proof.
  unfold recv_ops.inv, get_recv_buff. intros [Hnodup Hzero].
  destruct (_pending_recv_buffs x) as [| p q] eqn:Hq; cbn.
  { by rewrite Hq. }
  apply NoDup_cons in Hnodup as [Hp Hnodup].
  apply Forall_cons in Hzero as [Hpzero Hzero].
  assert (forall len,
             Forall (fun p' =>
                       managed_recv_size
                         (set_recv x (mrb_get_new (_mrb_pool x) p len) q) p'
                       = Some 0) q) as Hfilled.
  { intros len. rewrite Forall_forall in Hzero |- *. intros p' Hp'.
    rewrite managed_recv_size_set_recv. unfold mrb_get_new.
    rewrite list_lookup_alter_ne by (intros ->; contradiction).
    by apply Hzero. }
  destruct (0 <? first_recv w); cbn; [by split |].
  destruct (wait_for_recv_ready w timeout); cbn; [by split |].
  unfold bounded_buffer.push_with_haste. split.
  - apply NoDup_app. repeat split; [done | | apply NoDup_singleton].
    intros p' Hp' ->%list_elem_of_singleton. contradiction.
  - apply Forall_app. split; [done |]. by apply Forall_singleton.
Qed.

Lemma inv_release_recv_buff (x : t) (p : ptr) :
  recv_ops.inv x -> recv_ops.inv (release_recv_buff x p).
Proof.
  unfold recv_ops.inv, release_recv_buff. intros [Hnodup Hzero].
  destruct (_mrb_pool x !! p) as [b |] eqn:Hb; [| done].
  unfold mrb.release.
  destruct (Z.eqb_spec (mrb._len b) 0) as [Hlen | Hlen]; cbn.
  - rewrite list_insert_id by done. by rewrite set_recv_same.
  - assert (p ∉ _pending_recv_buffs x) as Hout.
    { intros Hin. rewrite Forall_forall in Hzero.
      specialize (Hzero p Hin). unfold managed_recv_size in Hzero.
      rewrite Hb in Hzero. cbn in Hzero. unfold mrb.get_size in Hzero.
      congruence. }
    unfold bounded_buffer.push_with_haste. split.
    + apply NoDup_app. repeat split; [done | | apply NoDup_singleton].
      intros p' Hp' ->%list_elem_of_singleton. contradiction.
    + apply Forall_app. split.
      * rewrite Forall_forall in Hzero |- *. intros p' Hp'.
        rewrite managed_recv_size_set_recv.
        rewrite list_lookup_insert_ne by (intros ->; contradiction).
        by apply Hzero.
      * apply Forall_singleton. rewrite managed_recv_size_set_recv.
        rewrite list_lookup_insert_eq by (by eapply lookup_lt_Some).
        done.
Qed.

Lemma inv_run (steps : list recv_ops.step) (x : t) :
  recv_ops.inv x -> recv_ops.inv (recv_ops.run x steps).2.
Proof.
  revert x. induction steps as [| [timeout w | p] steps IH]; intros x Hinv.
  - done.
  - cbn [recv_ops.run].
    pose proof (inv_get_recv_buff x timeout w Hinv) as Hinv'.
    destruct (get_recv_buff x timeout w) as [[buff x'] calls].
    specialize (IH x' Hinv').
    by destruct (recv_ops.run x' steps) as [buffs x''].
  - cbn [recv_ops.run]. apply IH. by apply inv_release_recv_buff.
Qed.

Lemma length_pool_get_recv_buff (x : t) (timeout : Q) (w : recv_world) :
  length (_mrb_pool (get_recv_buff x timeout w).1.2) = length (_mrb_pool x).
Proof.
  unfold get_recv_buff, mrb_get_new.
  destruct (_pending_recv_buffs x) as [| p q]; cbn; [done |].
  destruct (0 <? first_recv w); cbn; [by rewrite length_alter |].
  destruct (wait_for_recv_ready w timeout); cbn; [| done].
  by rewrite length_alter.
Qed.

Lemma length_pool_run (steps : list recv_ops.step) (x : t) :
  length (_mrb_pool (recv_ops.run x steps).2) = length (_mrb_pool x).
Proof.
  revert x. induction steps as [| [timeout w | p] steps IH]; intros x.
  - done.
  - cbn [recv_ops.run].
    pose proof (length_pool_get_recv_buff x timeout w) as Hlen.
    destruct (get_recv_buff x timeout w) as [[buff x'] calls].
    specialize (IH x').
    destruct (recv_ops.run x' steps) as [buffs x'']. cbn in *. congruence.
  - cbn [recv_ops.run]. rewrite IH. unfold release_recv_buff.
    destruct (_mrb_pool x !! p) as [b |]; [| done].
    destruct (mrb.release p b (_pending_recv_buffs x)) as [b' q]. cbn.
    by rewrite length_insert.
Qed.

Lemma inv_length (x : t) :
  recv_ops.inv x ->
  (length (_pending_recv_buffs x) <= length (_mrb_pool x))%nat.
Proof.
  intros [Hnodup Hzero].
  assert (length (seq 0 (length (_mrb_pool x))) = length (_mrb_pool x))
    as <- by apply length_seq.
  apply submseteq_length, NoDup_submseteq; [done |].
  intros p Hp. rewrite Forall_forall in Hzero. specialize (Hzero p Hp).
  apply elem_of_seq. unfold managed_recv_size in Hzero.
  destruct (_mrb_pool x !! p) as [b |] eqn:Hb; [| done].
  apply lookup_lt_Some in Hb. lia.
Qed.

Lemma make_inv (hints : device_addr_t) (w : setup_world) (x : t) :
  make hints w = inr x -> recv_ops.inv x.
Proof.
  intros (pool & _ & _ & ->)%make_inr. split; cbn.
  - apply NoDup_seq.
  - apply Forall_forall. intros p Hp%elem_of_seq.
    unfold managed_recv_size. cbn.
    rewrite list_lookup_fmap, lookup_seq_lt by lia. done.
Qed.

(** X2.  From construction on, through any sequence of [get_recv_buff] calls and
    releases (of any pointer, any number of times), the queue of free
    receive buffers holds no buffer twice, holds only buffers of length 0,
    and never holds more entries than there are receive buffers, which is the
    number configured: a push never finds the queue full. *)
Theorem recv_queue_never_overflows
    (hints : device_addr_t) (w : setup_world) (x : t)
    (steps : list recv_ops.step) :
  make hints w = inr x ->
  let x' := (recv_ops.run x steps).2 in
  NoDup (_pending_recv_buffs x') /\
  Forall (fun p => managed_recv_size x' p = Some 0) (_pending_recv_buffs x') /\
  (length (_pending_recv_buffs x') <= length (_mrb_pool x'))%nat /\
  length (_mrb_pool x') =
    Z.to_nat (cast (num_recv_frames hints) DEFAULT_NUM_FRAMES).
Proof.
  intros Hmake x'.
  pose proof (inv_run steps x (make_inv _ _ _ Hmake)) as Hinv.
  fold x' in Hinv. split; [apply Hinv |]. split; [apply Hinv |].
  split; [by apply inv_length |].
  subst x'. rewrite length_pool_run.
  apply make_inr in Hmake as (pool & _ & _ & ->). cbn.
  by rewrite length_fmap, length_seq.
Qed.

(** X3.  A buffer handed out by [get_recv_buff] is no longer in the queue, and it
    reports the result of the read that decided the call (converted to
    [size_t]): the first read when that was positive, the second one
    otherwise. *)
Theorem get_recv_buff_hands_out (x : t) (timeout : Q) (w : recv_world)
    (p : ptr) :
  recv_ops.inv x ->
  (get_recv_buff x timeout w).1.1 = Some p ->
  let x' := (get_recv_buff x timeout w).1.2 in
  (p ∉ _pending_recv_buffs x') /\
  managed_recv_size x' p = Some (to_size_t (recv_ops.deciding_recv w)) /\
  (0 < first_recv w ->
   recv_side.wait_budget (get_recv_buff x timeout w).2 = None).
Proof.
  unfold recv_ops.inv, get_recv_buff, recv_ops.deciding_recv.
  intros [Hnodup Hzero].
  destruct (_pending_recv_buffs x) as [| p0 q] eqn:Hq; cbn; [done |].
  apply NoDup_cons in Hnodup as [Hp Hnodup].
  apply Forall_cons in Hzero as [Hpzero Hzero].
  unfold managed_recv_size in Hpzero.
  destruct (_mrb_pool x !! p0) as [b |] eqn:Hb; [| done].
  destruct (Z.ltb_spec 0 (first_recv w)); cbn.
  - intros [= <-]. split; [done |].
    split; [by eapply managed_recv_size_get_new | done].
  - destruct (wait_for_recv_ready w timeout); cbn; [| done].
    intros [= <-]. split; [done |].
    split; [by eapply managed_recv_size_get_new | lia].
Qed.

Lemma get_recv_buff_then_release_pushes (x : t) (timeout : Q)
    (w : recv_world) (p : ptr) :
  recv_ops.inv x ->
  (get_recv_buff x timeout w).1.1 = Some p ->
  to_size_t (recv_ops.deciding_recv w) <> 0 ->
  release_recv_buff (get_recv_buff x timeout w).1.2 p =
    set_recv x (_mrb_pool x)
      (bounded_buffer.push_with_haste (tail (_pending_recv_buffs x)) p).
Proof.
  intros Hinv Hbuff Hlen.
  revert Hbuff. destruct Hinv as [Hnodup Hzero].
  unfold get_recv_buff, recv_ops.deciding_recv in *.
  destruct (_pending_recv_buffs x) as [| p0 q] eqn:Hq; cbn; [done |].
  apply Forall_cons in Hzero as [Hpzero _].
  unfold managed_recv_size in Hpzero.
  destruct (_mrb_pool x !! p0) as [b |] eqn:Hb; [| done].
  assert (forall len, len <> 0 ->
            release_recv_buff
              (set_recv x (mrb_get_new (_mrb_pool x) p0 len) q) p0
            = set_recv x (_mrb_pool x)
                (bounded_buffer.push_with_haste q p0)) as Hrelease.
  { intros len Hne. unfold release_recv_buff, mrb_get_new. cbn.
    rewrite list_lookup_alter_eq, Hb. cbn. unfold mrb.release. cbn.
    destruct (Z.eqb_spec len 0); [done |]. cbn.
    f_equal. apply list_eq. intros i.
    destruct (decide (i = p0)) as [-> | Hne'].
    - rewrite list_lookup_insert_eq
        by (rewrite length_alter; by eapply lookup_lt_Some).
      rewrite Hb. destruct b as [mem len0]. cbn in *.
      unfold mrb.get_size in Hpzero. cbn in Hpzero. by simplify_eq.
    - rewrite list_lookup_insert_ne by done.
      by rewrite list_lookup_alter_ne. }
  destruct (0 <? first_recv w); cbn.
  - intros [= <-]. by apply Hrelease.
  - destruct (wait_for_recv_ready w timeout); cbn; [| done].
    intros [= <-]. by apply Hrelease.
Qed.

(** X4.  Round trip.  When [get_recv_buff] hands out a buffer that reports a
    non-zero length and the caller releases it, every receive buffer is as it
    was before the call and the queue holds the same buffers as before the
    call, the released one included. *)
Theorem get_recv_buff_then_release (x : t) (timeout : Q) (w : recv_world)
    (p : ptr) :
  recv_ops.inv x ->
  (get_recv_buff x timeout w).1.1 = Some p ->
  to_size_t (recv_ops.deciding_recv w) <> 0 ->
  exists q,
    release_recv_buff (get_recv_buff x timeout w).1.2 p
      = set_recv x (_mrb_pool x) q /\
    q ≡ₚ _pending_recv_buffs x.
Proof.
  intros Hinv Hbuff Hlen.
  eexists. split; [by apply get_recv_buff_then_release_pushes |].
  revert Hbuff. unfold get_recv_buff.
  destruct (_pending_recv_buffs x) as [| p0 q]; cbn; [done |].
  assert (bounded_buffer.push_with_haste q p0 ≡ₚ p0 :: q) as Hperm
    by (unfold bounded_buffer.push_with_haste;
        by rewrite Permutation_app_comm).
  destruct (0 <? first_recv w); cbn; [by intros [= <-] |].
  destruct (wait_for_recv_ready w timeout); cbn; [by intros [= <-] | done].
Qed.

(** X5.  Releasing the same managed receive buffer again changes nothing,
    whatever the pointer and the state of the transport. *)
Theorem release_recv_buff_twice (x : t) (p : ptr) :
  release_recv_buff (release_recv_buff x p) p = release_recv_buff x p.
Proof.
  unfold release_recv_buff at 2 3.
  destruct (_mrb_pool x !! p) as [b |] eqn:Hb.
  - destruct (mrb.release p b (_pending_recv_buffs x)) as [b' q] eqn:Hrel.
    assert (mrb._len b' = 0) as Hlen.
    { unfold mrb.release in Hrel.
      destruct (Z.eqb_spec (mrb._len b) 0); by simplify_eq. }
    unfold release_recv_buff. cbn.
    rewrite list_lookup_insert_eq by (by eapply lookup_lt_Some).
    rewrite mrb_release_idle by done. cbn.
    by rewrite list_insert_insert_eq.
  - unfold release_recv_buff. by rewrite Hb.
Qed.

(** X6.  Releasing a buffer that is in the queue (one nobody holds) changes
    nothing. *)
Theorem release_recv_buff_queued (x : t) (p : ptr) :
  recv_ops.inv x ->
  p ∈ _pending_recv_buffs x ->
  release_recv_buff x p = x.
Proof.
  intros [_ Hzero] Hin. rewrite Forall_forall in Hzero.
  specialize (Hzero p Hin). unfold managed_recv_size in Hzero.
  unfold release_recv_buff.
  destruct (_mrb_pool x !! p) as [b |] eqn:Hb; [| done].
  rewrite mrb_release_idle by (cbn in Hzero; by simplify_eq).
  rewrite list_insert_id by done. apply set_recv_same.
Qed.

End receive_more.

(** * Further properties of the send side *)

Section send_more.

Context `{Platform}.

Lemma msb_commit_committed (b : msb.t) (len : Z) :
  msb._committed (msb.commit b len).1 = true.
Proof.
  unfold msb.commit. destruct (msb._committed b) eqn:Hc; [done |].
  by destruct (len =? 0).
Qed.

(** X7.  A second [commit] on a send buffer, with whatever length, changes
    nothing and submits nothing: between two acquires a buffer is sent at
    most once. *)
Theorem msb_commit_twice (b : msb.t) (len1 len2 : Z) :
  msb.commit (msb.commit b len1).1 len2 = ((msb.commit b len1).1, []) /\
  (length ((msb.commit b len1).2 ++ (msb.commit (msb.commit b len1).1 len2).2)
   <= 1)%nat.
Proof.
  assert (msb.commit (msb.commit b len1).1 len2 = ((msb.commit b len1).1, []))
    as Htwice.
  { unfold msb.commit at 1. by rewrite msb_commit_committed. }
  split; [exact Htwice |]. rewrite Htwice, app_nil_r.
  unfold msb.commit. destruct (msb._committed b); [cbn; lia |].
  destruct (len1 =? 0); cbn; lia.
Qed.

(** X8.  Once a send buffer has been acquired its completion event is
    reset, so what the next acquire does is decided by the event wait alone,
    whether the buffer was meanwhile committed with a non-zero length (which
    submits exactly one send on its socket) or not committed at all: the
    acquire returns none and leaves the buffer as it is when the wait returns
    WSA_WAIT_TIMEOUT, and for every other wait result it hands the buffer out
    again in the acquired state.  That includes WSA_WAIT_IO_COMPLETION and
    WSA_WAIT_FAILED, which do not say that the send has completed.  After a
    commit with length 0 the next acquire succeeds whatever the wait would
    return. *)
Theorem msb_handed_out_unless_timeout (this : ptr) (b : msb.t)
    (timeout timeout' : Q) (index index' : Z)
    (os os' : Z -> msb.wait_result) (len : Z) :
  msb.WSAWaitForMultipleEvents (msb._overlapped_hEvent b)
    (DWORD_of_double (timeout * 1000)) os <> msb.WSA_WAIT_TIMEOUT ->
  len <> 0 ->
  let b1 := (msb.get_new this b timeout index os).1.2 in
  let '(b2, calls) := msb.commit b1 len in
  let result := os' (DWORD_of_double (timeout' * 1000)) in
  calls = [msb.WSASend (msb._sock_fd b) len] /\
  (msb.get_new this b1 timeout' index' os').1 =
    (if decide (result = msb.WSA_WAIT_TIMEOUT) then (None, b1)
     else (Some this, b1)) /\
  (msb.get_new this b2 timeout' index' os').1 =
    (if decide (result = msb.WSA_WAIT_TIMEOUT) then (None, b2)
     else (Some this, b1)) /\
  (result = msb.WSA_WAIT_FAILED \/ result = msb.WSA_WAIT_IO_COMPLETION ->
   (msb.get_new this b2 timeout' index' os').1.1 = Some this /\
   msb._committed (msb.get_new this b2 timeout' index' os').1.2 = false) /\
  (msb.get_new this (msb.commit b1 0).1 timeout' index' os').1.1 = Some this.
Proof.
  intros Hwait Hlen b1. subst b1.
  rewrite msb_get_new_success by done. cbn.
  unfold msb.commit. cbn.
  destruct (Z.eqb_spec len 0) as [| _]; [done |].
  unfold msb.get_new, msb.WSAWaitForMultipleEvents. cbn.
  split; [done |].
  split; [by case_decide |]. split; [by case_decide |].
  split; [| done].
  intros [Hr | Hr]; rewrite Hr; by case_decide.
Qed.

Lemma make_msb_pool_coherent (slices : list nat) (sock_fd frame_size : Z)
    (ok : nat -> bool) (pool : list msb.t) :
  make_msb_pool slices sock_fd frame_size ok = inr pool ->
  Forall (fun b => msb._sock_fd b = sock_fd /\
                   msb._frame_size b = frame_size) pool.
Proof.
  revert pool. induction slices as [| i slices IH]; intros pool Hpool.
  - unfold_throws Hpool. simplify_eq. constructor.
  - cbn [make_msb_pool] in Hpool. unfold msb.make, UHD_ASSERT_THROW in Hpool.
    destruct (ok i); unfold_throws Hpool; [| done].
    destruct (make_msb_pool slices sock_fd frame_size ok) as [e | pool'];
      [done |].
    simplify_eq. constructor; [done | by apply IH].
Qed.

Lemma coherent_insert (x : t) (i : nat) (b b' : msb.t) (index : Z) :
  send_ops.coherent x ->
  _msb_pool x !! i = Some b ->
  msb._sock_fd b' = msb._sock_fd b ->
  msb._frame_size b' = msb._frame_size b ->
  send_ops.coherent (set_send x (<[i := b']> (_msb_pool x)) index).
Proof.
  unfold send_ops.coherent. cbn. intros Hall Hb Hsock Hsize.
  rewrite Forall_lookup in Hall |- *. intros j bj Hj.
  destruct (decide (j = i)) as [-> | Hne].
  - rewrite list_lookup_insert_eq in Hj by (by eapply lookup_lt_Some).
    simplify_eq. rewrite Hsock, Hsize. by eapply Hall.
  - rewrite list_lookup_insert_ne in Hj by done. by eapply Hall.
Qed.

Lemma msb_get_new_keeps (this : ptr) (b : msb.t) (timeout : Q) (index : Z)
    (os : Z -> msb.wait_result) :
  msb._sock_fd (msb.get_new this b timeout index os).1.2 = msb._sock_fd b /\
  msb._frame_size (msb.get_new this b timeout index os).1.2
    = msb._frame_size b.
Proof. unfold msb.get_new. by case_decide. Qed.

Lemma msb_commit_keeps (b : msb.t) (len : Z) :
  msb._sock_fd (msb.commit b len).1 = msb._sock_fd b /\
  msb._frame_size (msb.commit b len).1 = msb._frame_size b.
Proof.
  unfold msb.commit. destruct (msb._committed b); [done |].
  by destruct (len =? 0).
Qed.

Lemma coherent_get_send_buff (x x' : t) (timeout : Q)
    (os : Z -> msb.wait_result) (buff : option ptr) :
  send_ops.coherent x ->
  get_send_buff x timeout os = Some (buff, x') ->
  send_ops.coherent x'.
Proof.
  intros Hcoh Hcall. unfold get_send_buff in Hcall.
  fold (send_side.wrapped x) in Hcall.
  destruct (_msb_pool x !! Z.to_nat (send_side.wrapped x)) as [b |] eqn:Hb;
    [| done].
  cbn in Hcall.
  pose proof (msb_get_new_keeps (Z.to_nat (send_side.wrapped x)) b timeout
                (send_side.wrapped x) os) as [Hsock Hsize].
  destruct (msb.get_new _ b timeout _ os) as [[buff0 b'] index'].
  simplify_eq. by eapply coherent_insert.
Qed.

Lemma coherent_commit_send_buff (x : t) (p : ptr) (len : Z) :
  send_ops.coherent x -> send_ops.coherent (commit_send_buff x p len).1.
Proof.
  intros Hcoh. unfold commit_send_buff.
  destruct (_msb_pool x !! p) as [b |] eqn:Hb; [| done].
  pose proof (msb_commit_keeps b len) as [Hsock Hsize].
  destruct (msb.commit b len) as [b' calls]. cbn.
  by eapply coherent_insert.
Qed.

Lemma coherent_run (steps : list send_side.step) (x x' : t)
    (buffs : list (option ptr)) :
  send_ops.coherent x ->
  send_side.run x steps = Some (buffs, x') ->
  send_ops.coherent x' /\
  _send_frame_size x' = _send_frame_size x /\ _sock_fd x' = _sock_fd x.
Proof.
  revert x buffs. induction steps as [| [timeout os | p len] steps IH];
    intros x buffs Hcoh Hrun.
  - cbn in Hrun. by simplify_eq.
  - cbn [send_side.run] in Hrun.
    destruct (get_send_buff x timeout os) as [[buff x1] |] eqn:Hcall;
      [| done].
    cbn in Hrun.
    destruct (send_side.run x1 steps) as [[buffs1 x2] |] eqn:Hrun1; [| done].
    cbn in Hrun. simplify_eq.
    destruct (IH x1 buffs1) as (Hcoh' & Hsize & Hsock);
      [by eapply coherent_get_send_buff | done |].
    split; [done |]. rewrite Hsize, Hsock.
    unfold get_send_buff in Hcall.
    destruct (_msb_pool x !! _) as [b |]; [| done]. cbn in Hcall.
    destruct (msb.get_new _ b timeout _ os) as [[buff0 b'] index'].
    by simplify_eq.
  - cbn [send_side.run] in Hrun.
    destruct (IH _ buffs (coherent_commit_send_buff x p len Hcoh) Hrun)
      as (Hcoh' & Hsize & Hsock).
    split; [done |]. rewrite Hsize, Hsock. unfold commit_send_buff.
    destruct (_msb_pool x !! p) as [b |]; [| done].
    by destruct (msb.commit b len).
Qed.

Lemma make_coherent (hints : device_addr_t) (w : setup_world) (x : t) :
  make hints w = inr x -> send_ops.coherent x.
Proof.
  intros (pool & Hpool & _ & ->)%make_inr. unfold send_ops.coherent. cbn.
  by apply make_msb_pool_coherent in Hpool.
Qed.

Lemma to_int_small (z : Z) : - 2 ^ 31 <= z < 2 ^ 31 -> to_int z = z.
Proof. intros Hz. unfold to_int. rewrite Z.mod_small; lia. Qed.

(** X9.  At any point in the life of a constructed transport (after any
    sequence of [get_send_buff] and commit calls), a send buffer that
    [get_send_buff] hands out reports the configured send frame size as its
    length, and committing it with a non-zero length submits exactly one send
    of that length on the descriptor the send buffers were constructed with:
    the transport's socket converted to [int], which is the socket itself
    when its value fits in an [int]. *)
Theorem send_buff_reports_frame_size
    (hints : device_addr_t) (w : setup_world) (x x' x'' : t)
    (steps : list send_side.step) (buffs : list (option ptr))
    (timeout : Q) (os : Z -> msb.wait_result) (p : ptr) (len : Z) :
  make hints w = inr x ->
  send_side.run x steps = Some (buffs, x') ->
  get_send_buff x' timeout os = Some (Some p, x'') ->
  len <> 0 ->
  managed_send_size x'' p = Some (get_send_frame_size x'') /\
  get_send_frame_size x'' = cast (send_frame_size hints) mtu /\
  (commit_send_buff x'' p len).2
    = [msb.WSASend (to_int (WSASocket w)) len] /\
  (0 <= WSASocket w < 2 ^ 31 -> to_int (WSASocket w) = WSASocket w).
Proof.
  intros Hmake Hrun Hcall Hlen.
  destruct (coherent_run steps x x' buffs (make_coherent _ _ _ Hmake) Hrun)
    as (Hcoh & Hsize & Hsock).
  apply make_inr in Hmake as (pool & _ & _ & ->). cbn in Hsize, Hsock.
  unfold get_send_buff in Hcall. fold (send_side.wrapped x') in Hcall.
  destruct (_msb_pool x' !! Z.to_nat (send_side.wrapped x')) as [b |] eqn:Hb;
    [| done].
  cbn in Hcall.
  unfold send_ops.coherent in Hcoh. rewrite Forall_lookup in Hcoh.
  destruct (Hcoh _ _ Hb) as [Hbsock Hbsize].
  unfold msb.get_new in Hcall. case_decide; [by simplify_eq |].
  simplify_eq.
  unfold managed_send_size, commit_send_buff, get_send_frame_size. cbn.
  rewrite list_lookup_insert_eq by (by eapply lookup_lt_Some). cbn.
  destruct (Z.eqb_spec len 0); [done |]. cbn.
  unfold msb.get_size. cbn. rewrite Hbsize, Hbsock, Hsize, Hsock.
  repeat split. intros Hfits. apply to_int_small. lia.
Qed.

Lemma signalled_from_lookup (i : nat) (x : t) :
  send_ops.signalled_from i x ->
  (i < length (_msb_pool x))%nat ->
  exists b, _msb_pool x !! i = Some b /\ msb._overlapped_hEvent b = true.
Proof.
  unfold send_ops.signalled_from. intros Hall Hi.
  destruct (lookup_lt_is_Some_2 _ _ Hi) as [b Hb].
  exists b. split; [done |].
  rewrite Forall_lookup in Hall. apply (Hall 0%nat).
  by rewrite lookup_drop, Nat.add_0_r.
Qed.

Lemma first_round_from (asks : list (Q * (Z -> msb.wait_result))) (x : t)
    (i : nat) :
  Z.of_nat (length (_msb_pool x)) = _num_send_frames x ->
  _num_send_frames x < 2 ^ size_bits ->
  _next_send_buff_index x = Z.of_nat i ->
  (i + length asks <= length (_msb_pool x))%nat ->
  send_ops.signalled_from i x ->
  fst <$> send_side.run x (send_ops.calls asks)
    = Some (Some <$> seq i (length asks)).
Proof.
  revert x i. induction asks as [| [timeout os] asks IH];
    intros x i Hlen Hsize Hindex Hroom Hsig.
  - done.
  - cbn [length] in Hroom.
    destruct (signalled_from_lookup i x Hsig) as (b & Hb & Hevent); [lia |].
    assert (send_side.wrapped x = Z.of_nat i) as Hwrapped.
    { unfold send_side.wrapped.
      destruct (Z.eqb_spec (_next_send_buff_index x) (_num_send_frames x));
        lia. }
    cbn [send_ops.calls fmap list_fmap send_side.run]. cbn [fst snd].
    rewrite (get_send_buff_unfold x timeout os b)
      by (by rewrite Hwrapped, Nat2Z.id).
    rewrite Hwrapped, Nat2Z.id.
    rewrite msb_get_new_success
      by (unfold msb.WSAWaitForMultipleEvents; by rewrite Hevent).
    cbn [fst snd].
    assert (to_size_t (Z.of_nat i + 1) = Z.of_nat (S i)) as ->
      by (unfold to_size_t; rewrite Z.mod_small; lia).
    match goal with
    | |- context [Some (Some i, ?x1)] =>
        assert (fst <$> send_side.run x1 (send_ops.calls asks)
                = Some (Some <$> seq (S i) (length asks))) as Hrest
    end.
    { apply IH; cbn; rewrite ?length_insert; try (done || lia).
      unfold send_ops.signalled_from in Hsig |- *. cbn.
      rewrite drop_insert_lt by lia.
      rewrite <- Nat.add_1_r, <- drop_drop.
      by apply Forall_drop. }
    cbn [mbind option_bind]. fold (send_ops.calls asks).
    destruct (send_side.run _ (send_ops.calls asks)) as [[buffs x'] |];
      cbn in Hrest |- *; by simplify_eq.
Qed.

(** X10.  On a new transport the first [_num_send_frames] calls of
    [get_send_buff] all succeed, whatever their timeouts and whatever the
    operating system would answer to a wait: they hand out the buffers 0, 1,
    2, ... in this order. *)
Theorem first_round_succeeds
    (hints : device_addr_t) (w : setup_world) (x : t)
    (asks : list (Q * (Z -> msb.wait_result))) :
  make hints w = inr x ->
  WSA_MAXIMUM_WAIT_EVENTS < 2 ^ size_bits ->
  Z.of_nat (length asks) <= cast (num_send_frames hints) DEFAULT_NUM_FRAMES ->
  fst <$> send_side.run x (send_ops.calls asks)
    = Some (Some <$> seq 0 (length asks)).
Proof.
  intros Hmake Hmax Hasks.
  apply make_inr in Hmake as (pool & Hpool & Hle & ->).
  apply make_msb_pool_fresh in Hpool as [Hlen Hfresh].
  rewrite length_seq in Hlen.
  apply first_round_from; cbn.
  - lia.
  - lia.
  - done.
  - lia.
  - unfold send_ops.signalled_from. cbn. rewrite drop_0.
    eapply Forall_impl; [exact Hfresh |]. by intros b (_ & _ & Hevent & _).
Qed.

End send_more.

(** * Further properties of the transport as a whole *)

Section transport_more.

Context `{Platform}.

Lemma recv_run_frame (steps : list recv_ops.step) (x : t) :
  let x' := (recv_ops.run x steps).2 in
  _msb_pool x' = _msb_pool x /\
  _next_send_buff_index x' = _next_send_buff_index x /\
  _recv_frame_size x' = _recv_frame_size x /\
  _num_recv_frames x' = _num_recv_frames x /\
  _send_frame_size x' = _send_frame_size x /\
  _num_send_frames x' = _num_send_frames x.
Proof.
  revert x. induction steps as [| [timeout w | p] steps IH]; intros x.
  - done.
  - cbn [recv_ops.run].
    assert (exists pool q,
               (get_recv_buff x timeout w).1.2 = set_recv x pool q)
      as (pool & q & Hx1).
    { unfold get_recv_buff.
      destruct (_pending_recv_buffs x) as [| p0 q0] eqn:Hq; cbn.
      - exists (_mrb_pool x), (_pending_recv_buffs x).
        by rewrite set_recv_same.
      - destruct (0 <? first_recv w); cbn; [by eexists _, _ |].
        destruct (wait_for_recv_ready w timeout); cbn; by eexists _, _. }
    destruct (get_recv_buff x timeout w) as [[buff x1] calls].
    cbn in Hx1. subst x1. specialize (IH (set_recv x pool q)).
    by destruct (recv_ops.run _ steps) as [buffs x''].
  - cbn [recv_ops.run].
    assert (exists pool q, release_recv_buff x p = set_recv x pool q)
      as (pool & q & ->).
    { unfold release_recv_buff.
      destruct (_mrb_pool x !! p) as [b |].
      - destruct (mrb.release p b (_pending_recv_buffs x)). by eexists _, _.
      - exists (_mrb_pool x), (_pending_recv_buffs x).
        by rewrite set_recv_same. }
    apply (IH (set_recv x pool q)).
Qed.

Lemma set_send_same (x : t) :
  set_send x (_msb_pool x) (_next_send_buff_index x) = x.
Proof. by destruct x. Qed.

Lemma send_run_frame (steps : list send_side.step) (x x' : t)
    (buffs : list (option ptr)) :
  send_side.run x steps = Some (buffs, x') ->
  _mrb_pool x' = _mrb_pool x /\
  _pending_recv_buffs x' = _pending_recv_buffs x /\
  _recv_frame_size x' = _recv_frame_size x /\
  _num_recv_frames x' = _num_recv_frames x /\
  _send_frame_size x' = _send_frame_size x /\
  _num_send_frames x' = _num_send_frames x.
Proof.
  revert x buffs. induction steps as [| [timeout os | p len] steps IH];
    intros x buffs Hrun.
  - cbn in Hrun. by simplify_eq.
  - cbn [send_side.run] in Hrun.
    destruct (get_send_buff x timeout os) as [[buff x1] |] eqn:Hcall;
      [| done].
    cbn in Hrun.
    destruct (send_side.run x1 steps) as [[buffs1 x2] |] eqn:Hrun1; [| done].
    cbn in Hrun. simplify_eq.
    unfold get_send_buff in Hcall.
    destruct (_msb_pool x !! _) as [b |]; [| done]. cbn in Hcall.
    destruct (msb.get_new _ b timeout _ os) as [[buff0 b'] index'].
    simplify_eq. apply (IH _ _ Hrun1).
  - cbn [send_side.run] in Hrun.
    assert (exists pool index,
               (commit_send_buff x p len).1 = set_send x pool index)
      as (pool & index & Hx1).
    { unfold commit_send_buff.
      destruct (_msb_pool x !! p) as [b |].
      - destruct (msb.commit b len). by eexists _, _.
      - exists (_msb_pool x), (_next_send_buff_index x).
        by rewrite set_send_same. }
    rewrite Hx1 in Hrun. apply (IH _ _ Hrun).
Qed.

(** X12.  The two directions do not interfere, and the configuration is fixed:
    any sequence of receive-side calls leaves the send buffers and the
    rotating index as they are, any sequence of send-side calls leaves the
    receive buffers and their queue as they are, and the four accessors
    return the same values before and after. *)
Theorem directions_do_not_interfere (x : t)
    (recv_steps : list recv_ops.step) (send_steps : list send_side.step) :
  (let x' := (recv_ops.run x recv_steps).2 in
   _msb_pool x' = _msb_pool x /\
   _next_send_buff_index x' = _next_send_buff_index x /\
   get_recv_frame_size x' = get_recv_frame_size x /\
   get_num_recv_frames x' = get_num_recv_frames x /\
   get_send_frame_size x' = get_send_frame_size x /\
   get_num_send_frames x' = get_num_send_frames x) /\
  match send_side.run x send_steps with
  | Some (_, x') =>
      _mrb_pool x' = _mrb_pool x /\
      _pending_recv_buffs x' = _pending_recv_buffs x /\
      get_recv_frame_size x' = get_recv_frame_size x /\
      get_num_recv_frames x' = get_num_recv_frames x /\
      get_send_frame_size x' = get_send_frame_size x /\
      get_num_send_frames x' = get_num_send_frames x
  | None => True
  end.
Proof.
  split; [apply recv_run_frame |].
  destruct (send_side.run x send_steps) as [[buffs x'] |] eqn:Hrun; [| done].
  by eapply send_run_frame.
Qed.

Lemma make_msb_pool_outcome (slices : list nat) (sock_fd frame_size : Z)
    (ok : nat -> bool) :
  make_msb_pool slices sock_fd frame_size ok =
    if forallb ok slices then
      inr ((fun i => {| msb._sock_fd := sock_fd;
                        msb._frame_size := frame_size;
                        msb._committed := true;
                        msb._overlapped_hEvent := true;
                        msb._wsa_buff_buf := i;
                        msb._wsa_buff_len := 0 |}) <$> slices)
    else inl (assertion_error "_overlapped.hEvent != WSA_INVALID_EVENT").
Proof.
  induction slices as [| i slices IH]; [done |].
  cbn [make_msb_pool forallb]. unfold msb.make, UHD_ASSERT_THROW.
  destruct (ok i); [| done]. rewrite IH. cbn.
  by destruct (forallb ok slices).
Qed.

(** X13.  What [udp_zero_copy::make] returns, completely, in a world where a
    pool is made only for a positive frame count and frame size.  The
    constructor fails at the first of these that applies: a pool is not made
    (its validation or the allocation fails), more send frames than [WSA_MAXIMUM_WAIT_EVENTS] (failed
    assertion), the address does not resolve, the socket cannot be created or
    cannot be connected (os_error with the Winsock error code), an event
    cannot be created for a send buffer (failed assertion).  Otherwise it
    returns a transport with the frame sizes and counts of the hints (the
    MTU and 32 where a key is missing), all receive buffers empty and queued
    in pool order, all send buffers committed with length 0 and signalled and
    holding the socket converted to [int], and the rotating index at 0. *)
Theorem udp_zero_copy_make_outcome (hints : device_addr_t) (w : setup_world) :
  pools_validated hints w ->
  let recv_size := default mtu (recv_frame_size hints) in
  let recv_frames := default 32 (num_recv_frames hints) in
  let send_size := default mtu (send_frame_size hints) in
  let send_frames := default 32 (num_send_frames hints) in
  udp_zero_copy_make hints w =
    if negb (recv_buffer_pool_made w && send_buffer_pool_made w) then
      inl bad_alloc
    else if WSA_MAXIMUM_WAIT_EVENTS <? send_frames then
      inl (assertion_error "_num_send_frames <= WSA_MAXIMUM_WAIT_EVENTS")
    else if negb (resolved w) then inl system_error
    else if WSASocket w =? INVALID_SOCKET then
      inl (os_error "WSASocket() failed with error %d" (WSAGetLastError w))
    else if negb (WSAConnect w =? 0) then
      inl (os_error "WSAConnect() failed with error %d" (WSAGetLastError w))
    else if negb (forallb (WSACreateEvent w) (seq 0 (Z.to_nat send_frames)))
    then inl (assertion_error "_overlapped.hEvent != WSA_INVALID_EVENT")
    else
      inr {| _recv_frame_size := recv_size;
             _num_recv_frames := recv_frames;
             _send_frame_size := send_size;
             _num_send_frames := send_frames;
             _msb_pool :=
               (fun i => {| msb._sock_fd := to_int (WSASocket w);
                            msb._frame_size := send_size;
                            msb._committed := true;
                            msb._overlapped_hEvent := true;
                            msb._wsa_buff_buf := i;
                            msb._wsa_buff_len := 0 |})
                 <$> seq 0 (Z.to_nat send_frames);
             _mrb_pool :=
               (fun i => {| mrb._mem := i; mrb._len := 0 |})
                 <$> seq 0 (Z.to_nat recv_frames);
             _pending_recv_buffs := seq 0 (Z.to_nat recv_frames);
             _next_send_buff_index := 0;
             _sock_fd := WSASocket w |}.
Proof.
  intros _ recv_size recv_frames send_size send_frames.
  unfold udp_zero_copy_make, make, buffer_pool_make, UHD_ASSERT_THROW, cast.
  fold recv_size recv_frames send_size send_frames.
  change DEFAULT_NUM_FRAMES with 32.
  fold recv_frames send_frames.
  destruct (recv_buffer_pool_made w); [| done].
  destruct (send_buffer_pool_made w); [| done]. cbn [andb negb].
  rewrite Z.leb_antisym.
  destruct (WSA_MAXIMUM_WAIT_EVENTS <? send_frames); [done |].
  destruct (resolved w); [| done].
  destruct (WSASocket w =? INVALID_SOCKET); [done |].
  destruct (WSAConnect w =? 0); [| done]. cbn [negb].
  rewrite make_msb_pool_outcome, foldl_push_with_haste.
  by destruct (forallb _ _).
Qed.

Lemma process_from (started : bool)
    (constructions : list (device_addr_t * setup_world)) :
  uhd_wsa_control.process started constructions =
    (if started then []
     else if existsb (fun c => recv_buffer_pool_made c.2
                               && send_buffer_pool_made c.2) constructions
          then [uhd_wsa_control.WSAStartup 514] else []) ++
    (if started || existsb (fun c => recv_buffer_pool_made c.2
                                     && send_buffer_pool_made c.2)
                     constructions
     then [uhd_wsa_control.WSACleanup] else []).
Proof.
  revert started.
  induction constructions as [| [hints w] constructions IH]; intros started.
  - cbn. by destruct started.
  - cbn [uhd_wsa_control.process existsb]. unfold uhd_wsa_control.make.
    cbn [snd].
    destruct (recv_buffer_pool_made w && send_buffer_pool_made w); cbn.
    + rewrite IH. by destruct started.
    + by rewrite IH.
Qed.

(** X14.  Over the whole life of a process, however many transports it constructs
    and whether or not the constructions succeed, Winsock is started at most
    once, with version 2.2, and cleaned up once at exit if and only if it
    was started; it is started by the first construction whose pool
    allocations succeed, and a process in which none does makes neither
    call.  The static object changes nothing in what a construction
    returns. *)
Theorem wsa_started_at_most_once
    (constructions : list (device_addr_t * setup_world)) :
  uhd_wsa_control.process false constructions =
    (if existsb (fun c => recv_buffer_pool_made c.2
                          && send_buffer_pool_made c.2) constructions
     then [uhd_wsa_control.WSAStartup 514; uhd_wsa_control.WSACleanup]
     else []) /\
  forall started hints w,
    (uhd_wsa_control.make started hints w).2 = udp_zero_copy_make hints w.
Proof.
  split.
  - rewrite process_from. cbn. by destruct (existsb _ _).
  - intros started hints w. unfold uhd_wsa_control.make.
    by destruct (recv_buffer_pool_made w && send_buffer_pool_made w).
Qed.

End transport_more.

(** ** The further properties on concrete transports *)

Lemma example_inv : recv_ops.inv examples.transport.
Proof. exact (make_inv (H := win64) _ _ _ example_make). Defined.

Lemma recv_queue_never_overflows_witness :
  @make win64 examples.hints examples.setup_ok = inr examples.transport /\
  (length (_pending_recv_buffs
             (recv_ops.run (H := win64) examples.transport
                more_examples.recv_steps).2) <= 4)%nat.
Proof.
  split; [exact example_make |].
  destruct (recv_queue_never_overflows (H := win64) examples.hints
              examples.setup_ok examples.transport more_examples.recv_steps
              example_make) as (_ & _ & Hlen & Hpool).
  rewrite Hpool in Hlen. exact Hlen.
Defined.

Lemma get_recv_buff_hands_out_witness :
  recv_ops.inv examples.transport /\
  (@get_recv_buff win64 examples.transport 1
     more_examples.datagram_waiting).1.1 = Some 0%nat /\
  managed_recv_size
    (@get_recv_buff win64 examples.transport 1
       more_examples.datagram_waiting).1.2 0 = Some 100 /\
  recv_side.wait_budget
    (@get_recv_buff win64 examples.transport 1
       more_examples.datagram_waiting).2 = None.
Proof.
  assert (Hbuff : (@get_recv_buff win64 examples.transport 1
                     more_examples.datagram_waiting).1.1 = Some 0%nat)
    by reflexivity.
  split; [exact example_inv |]. split; [exact Hbuff |].
  destruct (get_recv_buff_hands_out (H := win64) examples.transport 1
              more_examples.datagram_waiting 0 example_inv Hbuff)
    as (_ & Hsize & Hwait).
  split; [exact Hsize |]. apply Hwait. reflexivity.
Defined.

Lemma get_recv_buff_then_release_witness :
  recv_ops.inv examples.transport /\
  (@get_recv_buff win64 examples.transport 1
     more_examples.datagram_waiting).1.1 = Some 0%nat /\
  @to_size_t win64 (recv_ops.deciding_recv more_examples.datagram_waiting)
    <> 0 /\
  exists q,
    release_recv_buff
      (@get_recv_buff win64 examples.transport 1
         more_examples.datagram_waiting).1.2 0
    = set_recv examples.transport (_mrb_pool examples.transport) q /\
    q ≡ₚ _pending_recv_buffs examples.transport.
Proof.
  assert (Hbuff : (@get_recv_buff win64 examples.transport 1
                     more_examples.datagram_waiting).1.1 = Some 0%nat)
    by reflexivity.
  assert (Hlen : @to_size_t win64
                   (recv_ops.deciding_recv more_examples.datagram_waiting)
                 <> 0)
    by (vm_compute; discriminate).
  split; [exact example_inv |]. split; [exact Hbuff |].
  split; [exact Hlen |].
  exact (get_recv_buff_then_release (H := win64) examples.transport 1
           more_examples.datagram_waiting 0 example_inv Hbuff Hlen).
Defined.

Lemma release_recv_buff_queued_witness :
  recv_ops.inv examples.transport /\
  2%nat ∈ _pending_recv_buffs examples.transport /\
  release_recv_buff examples.transport 2 = examples.transport.
Proof.
  assert (Hin : 2%nat ∈ _pending_recv_buffs examples.transport)
    by (apply (list_elem_of_lookup_2 _ 2%nat); reflexivity).
  split; [exact example_inv |]. split; [exact Hin |].
  exact (release_recv_buff_queued examples.transport 2 example_inv Hin).
Defined.

Lemma msb_handed_out_unless_timeout_witness :
  msb.WSAWaitForMultipleEvents
    (msb._overlapped_hEvent examples.send_buffer)
    (DWORD_of_double (1 * 1000)) examples.never <> msb.WSA_WAIT_TIMEOUT /\
  10 <> 0 /\
  (@msb.get_new win64 0
     (msb.commit
        (@msb.get_new win64 0 examples.send_buffer 1 0 examples.never).1.2
        10).1
     5 1 (fun _ => msb.WSA_WAIT_FAILED)).1.1 = Some 0%nat.
Proof.
  assert (Hwait : msb.WSAWaitForMultipleEvents
                    (msb._overlapped_hEvent examples.send_buffer)
                    (DWORD_of_double (1 * 1000)) examples.never
                  <> msb.WSA_WAIT_TIMEOUT) by discriminate.
  assert (Hlen : 10 <> 0) by lia.
  split; [exact Hwait |]. split; [exact Hlen |].
  pose proof (msb_handed_out_unless_timeout (H := win64) 0
                examples.send_buffer 1 5 0 1 examples.never
                (fun _ => msb.WSA_WAIT_FAILED) 10 Hwait Hlen) as Hthm.
  cbn zeta in Hthm.
  destruct (msb.commit _ 10) as [b2 calls].
  destruct Hthm as (_ & _ & _ & Hfailed & _).
  apply Hfailed. left. reflexivity.
Defined.

Lemma send_buff_reports_frame_size_witness :
  @make win64 examples.hints examples.setup_ok = inr examples.transport /\
  exists buffs x' x'',
    send_side.run (H := win64) examples.transport more_examples.send_steps
      = Some (buffs, x') /\
    @get_send_buff win64 x' 1 examples.never = Some (Some 1%nat, x'') /\
    10 <> 0 /\
    managed_send_size x'' 1 = Some 1472 /\
    (commit_send_buff x'' 1 10).2 = [msb.WSASend 7 10].
Proof.
  split; [exact example_make |].
  assert (Hlen : 10 <> 0) by lia.
  eexists _, _, _.
  split; [reflexivity |]. split; [reflexivity |]. split; [exact Hlen |].
  destruct (send_buff_reports_frame_size (H := win64) examples.hints
              examples.setup_ok examples.transport _ _
              more_examples.send_steps _ 1 examples.never 1 10
              example_make eq_refl eq_refl Hlen)
    as (Hsize & Hframe & Hsend & _).
  split; [| exact Hsend].
  rewrite Hsize, Hframe. reflexivity.
Defined.

Lemma first_round_succeeds_witness :
  @make win64 examples.hints examples.setup_ok = inr examples.transport /\
  @WSA_MAXIMUM_WAIT_EVENTS win64 < 2 ^ @size_bits win64 /\
  Z.of_nat (length [(1%Q, examples.never); (0%Q, examples.never)])
    <= cast (num_send_frames examples.hints) DEFAULT_NUM_FRAMES /\
  fst <$> send_side.run (H := win64) examples.transport
            (send_ops.calls [(1%Q, examples.never); (0%Q, examples.never)])
    = Some [Some 0; Some 1]%nat.
Proof.
  assert (Hmax : @WSA_MAXIMUM_WAIT_EVENTS win64 < 2 ^ @size_bits win64)
    by reflexivity.
  assert (Hasks :
            Z.of_nat (length [(1%Q, examples.never); (0%Q, examples.never)])
            <= cast (num_send_frames examples.hints) DEFAULT_NUM_FRAMES)
    by (vm_compute; discriminate).
  split; [exact example_make |]. split; [exact Hmax |].
  split; [exact Hasks |].
  exact (first_round_succeeds (H := win64) examples.hints examples.setup_ok
           examples.transport _ example_make Hmax Hasks).
Defined.

Lemma udp_zero_copy_make_outcome_witness :
  pools_validated (H := win64) examples.hints examples.setup_ok /\
  @udp_zero_copy_make win64 examples.hints examples.setup_ok
    = inr examples.transport.
Proof.
  assert (Hvalid : pools_validated (H := win64) examples.hints
                     examples.setup_ok)
    by (split; intros _; split; reflexivity).
  split; [exact Hvalid |].
  rewrite (udp_zero_copy_make_outcome (H := win64) examples.hints
             examples.setup_ok Hvalid).
  reflexivity.
Defined.

(** A process that fails one construction for lack of memory and then
    builds two transports starts Winsock once and cleans it up once. *)
Example wsa_process_example :
  uhd_wsa_control.process (H := win64) false
    [(examples.hints, more_examples.setup_no_memory);
     (examples.greedy_hints, examples.setup_ok);
     (examples.hints, examples.setup_ok)]
  = [uhd_wsa_control.WSAStartup 514; uhd_wsa_control.WSACleanup].
Proof. reflexivity. Qed.

(** * A receive buffer filled with zero bytes *)

Section zero_length_fill.

Context `{Platform}.

(** A buffer of length 0 that is not in the queue: nobody holds valid data
    in it, and nothing will release it. *)
Lemma lost_get_recv_buff (x : t) (timeout : Q) (w : recv_world) (p : ptr) :
  managed_recv_size x p = Some 0 ->
  p ∉ _pending_recv_buffs x ->
  managed_recv_size (get_recv_buff x timeout w).1.2 p = Some 0 /\
  p ∉ _pending_recv_buffs (get_recv_buff x timeout w).1.2.
Proof.
  intros Hzero Hout. unfold get_recv_buff.
  destruct (_pending_recv_buffs x) as [| p0 q] eqn:Hq; cbn.
  { by rewrite Hq. }
  apply not_elem_of_cons in Hout as [Hne Hout].
  assert (forall len,
             managed_recv_size
               (set_recv x (mrb_get_new (_mrb_pool x) p0 len) q) p = Some 0)
    as Hfilled.
  { intros len. rewrite managed_recv_size_set_recv. unfold mrb_get_new.
    by rewrite list_lookup_alter_ne. }
  destruct (0 <? first_recv w); cbn; [by split |].
  destruct (wait_for_recv_ready w timeout); cbn; [by split |].
  split; [done |]. unfold bounded_buffer.push_with_haste.
  rewrite elem_of_app, list_elem_of_singleton. by intros [? | ?].
Qed.

Lemma lost_release_recv_buff (x : t) (p p' : ptr) :
  managed_recv_size x p = Some 0 ->
  p ∉ _pending_recv_buffs x ->
  managed_recv_size (release_recv_buff x p') p = Some 0 /\
  p ∉ _pending_recv_buffs (release_recv_buff x p').
Proof.
  intros Hzero Hout. unfold release_recv_buff.
  destruct (_mrb_pool x !! p') as [b |] eqn:Hb; [| done].
  unfold mrb.release.
  destruct (Z.eqb_spec (mrb._len b) 0) as [Hlen | Hlen]; cbn.
  - rewrite list_insert_id by done. by rewrite set_recv_same.
  - assert (p <> p') as Hne.
    { intros ->. unfold managed_recv_size in Hzero. rewrite Hb in Hzero.
      cbn in Hzero. unfold mrb.get_size in Hzero. congruence. }
    split.
    + rewrite managed_recv_size_set_recv.
      by rewrite list_lookup_insert_ne.
    + unfold bounded_buffer.push_with_haste.
      rewrite elem_of_app, list_elem_of_singleton. by intros [? | ?].
Qed.

Lemma lost_run (steps : list recv_ops.step) (x : t) (p : ptr) :
  managed_recv_size x p = Some 0 ->
  p ∉ _pending_recv_buffs x ->
  managed_recv_size (recv_ops.run x steps).2 p = Some 0 /\
  p ∉ _pending_recv_buffs (recv_ops.run x steps).2.
Proof.
  revert x. induction steps as [| [timeout w | p'] steps IH];
    intros x Hzero Hout.
  - done.
  - cbn [recv_ops.run].
    destruct (lost_get_recv_buff x timeout w p Hzero Hout) as [Hzero' Hout'].
    destruct (get_recv_buff x timeout w) as [[buff x'] calls].
    specialize (IH x' Hzero' Hout').
    by destruct (recv_ops.run x' steps) as [buffs x''].
  - cbn [recv_ops.run].
    destruct (lost_release_recv_buff x p p' Hzero Hout) as [Hzero' Hout'].
    by apply IH.
Qed.

(** C1, where the code departs from it.  A call of [get_recv_buff] whose
    first read gives nothing and whose second read returns 0 (a zero-byte
    datagram) hands out the popped buffer with length 0.  Releasing that
    buffer changes nothing, and whatever is called afterwards, further
    releases of it included, the buffer is never in the queue again: it is
    out of circulation for the life of the transport. *)
Theorem zero_length_fill_loses_buffer
    (x : t) (timeout : Q) (w : recv_world) (mrb : ptr) (q : list ptr)
    (b : mrb.t) (steps : list recv_ops.step) :
  bounded_buffer.pop_with_timed_wait (_pending_recv_buffs x) = Some (mrb, q) ->
  _mrb_pool x !! mrb = Some b ->
  mrb ∉ q ->
  first_recv w <= 0 ->
  wait_for_recv_ready w timeout = true ->
  second_recv w = 0 ->
  let '(buff, x1, _) := get_recv_buff x timeout w in
  buff = Some mrb /\
  managed_recv_size x1 mrb = Some 0 /\
  release_recv_buff x1 mrb = x1 /\
  (mrb ∉ _pending_recv_buffs (recv_ops.run x1 steps).2).
Proof.
  intros Hpop Hb Hout Hfirst Hwait Hsecond.
  rewrite (get_recv_buff_fallback _ _ _ _ _ Hpop Hfirst), Hwait, Hsecond.
  rewrite to_size_t_0.
  set (x1 := set_recv x (mrb_get_new (_mrb_pool x) mrb 0) q).
  assert (managed_recv_size x1 mrb = Some 0) as Hzero
    by (by eapply managed_recv_size_get_new).
  split; [done |]. split; [done |]. split.
  - unfold release_recv_buff. unfold managed_recv_size in Hzero.
    destruct (_mrb_pool x1 !! mrb) as [b1 |] eqn:Hb1; [| done].
    rewrite mrb_release_idle by (cbn in Hzero; by simplify_eq).
    rewrite list_insert_id by done. apply set_recv_same.
  - by apply lost_run.
Qed.

End zero_length_fill.

Lemma zero_length_fill_loses_buffer_witness :
  bounded_buffer.pop_with_timed_wait (_pending_recv_buffs examples.transport)
    = Some (0%nat, [1; 2; 3]%nat) /\
  _mrb_pool examples.transport !! 0%nat = Some (mrb.make 0) /\
  (0%nat ∉ [1; 2; 3]%nat) /\
  first_recv examples.empty_datagram_second <= 0 /\
  wait_for_recv_ready examples.empty_datagram_second 1 = true /\
  second_recv examples.empty_datagram_second = 0 /\
  let x1 := (@get_recv_buff win64 examples.transport 1
               examples.empty_datagram_second).1.2 in
  managed_recv_size x1 0 = Some 0 /\
  (0%nat ∉ _pending_recv_buffs
             (recv_ops.run (H := win64) x1
                [recv_ops.release_ 0; recv_ops.release_ 0;
                 recv_ops.get_recv_buff_ 1 examples.silence]).2).
Proof.
  assert (Hout : 0%nat ∉ [1; 2; 3]%nat).
  { intros Hin. repeat (apply elem_of_cons in Hin as [Heq | Hin];
                        [discriminate Heq |]).
    by apply not_elem_of_nil in Hin. }
  assert (Hfirst : first_recv examples.empty_datagram_second <= 0)
    by (cbn; lia).
  assert (Hwait : wait_for_recv_ready examples.empty_datagram_second 1 = true)
    by reflexivity.
  assert (Hsecond : second_recv examples.empty_datagram_second = 0)
    by reflexivity.
  split; [exact example_pop |]. split; [exact example_lookup |].
  split; [exact Hout |]. split; [exact Hfirst |]. split; [exact Hwait |].
  split; [exact Hsecond |].
  pose proof (zero_length_fill_loses_buffer (H := win64) examples.transport 1
                examples.empty_datagram_second 0 [1; 2; 3]%nat (mrb.make 0)
                [recv_ops.release_ 0; recv_ops.release_ 0;
                 recv_ops.get_recv_buff_ 1 examples.silence]
                example_pop example_lookup Hout Hfirst Hwait Hsecond)
    as Hthm.
  cbn zeta.
  destruct (get_recv_buff examples.transport 1
              examples.empty_datagram_second) as [[buff x1] calls].
  destruct Hthm as (_ & Hzero & _ & Hlost).
  split; [exact Hzero | exact Hlost].
Defined.
